(** * shellserver-mcp: the [run_command] tool of [server.py]

    A shallow embedding of the one coroutine of the repository,
    [run_command], together with the parts of the Python runtime it
    touches: [bytes.decode()], the truth value of a [bytes] object,
    [try ... except Exception], the two [await] points
    ([asyncio.create_subprocess_shell] and [Process.communicate]) and
    the [returncode] attribute of the process object. *)

From Stdlib Require Import ZArith NArith Ascii String DecimalString.
From Stdlib.Strings Require Import Byte.
From stdpp Require Import gmap strings list fin_maps.

Local Open Scope N_scope.

(** ** Python values *)

(** A Python [bytes] object: a finite sequence of octets. *)
Definition bytes := list byte.

(** A Python [str]: a finite sequence of Unicode code points. *)
Definition str := list N.

(** A [str] literal of the source, written with ASCII characters. *)
Definition lit (s : string) : str :=
  map N_of_ascii (list_ascii_of_string s).

(** The values stored in the dictionary that [run_command] returns
    ([Dict[str, Any]]): text, integers, and [None], which is what the
    [returncode] attribute holds while the child has not exited. *)
Inductive pyval :=
| PyStr (s : str)
| PyInt (z : Z)
| PyNone.

(** The returned dictionary; its keys are the three literals of the
    source. *)
Abbreviation pydict := (gmap string pyval).

(** ** Exceptions *)

(** The exception classes that can reach the [except] clause, with the
    built-in hierarchy flattened to what the clause tests. *)
Inductive exc_class :=
| OSError
| FileNotFoundError
| PermissionError
| BlockingIOError
| NotImplementedError
| ValueError
| RuntimeError
| MemoryError
| UnicodeDecodeError
| CancelledError        (* asyncio.CancelledError *)
| KeyboardInterrupt
| SystemExit
| GeneratorExit.

(** [issubclass(c, Exception)]: the four classes below derive from
    [BaseException] directly. *)
Definition issubclass_Exception (c : exc_class) : bool :=
  match c with
  | CancelledError | KeyboardInterrupt | SystemExit | GeneratorExit => false
  | _ => true
  end.

(** An exception instance: its class and the text [str(e)] gives. *)
Record exn := Exn { exn_class : exc_class; exn_str : str }.

(** ** [bytes.decode()] *)

(** The text encodings a platform locale may select. *)
Inductive codec := utf_8 | latin_1 | ascii_.

(** What a strict decoder reports when it stops: the offending slice
    [start, stop) of the input and the reason. *)
Record decode_error := DecodeError {
  de_start : nat;
  de_stop : nat;
  de_reason : string
}.

Definition is_continuation (b : byte) : bool :=
  let c := Byte.to_N b in (0x80 <=? c) && (c <? 0xC0).

(** The six payload bits of a continuation byte. *)
Definition low6 (b : byte) : N := N.land (Byte.to_N b) 0x3F.

Definition invalid_start (pos : nat) : decode_error :=
  DecodeError pos (pos + 1) "invalid start byte".

Definition invalid_continuation (pos seen : nat) : decode_error :=
  DecodeError pos (pos + seen) "invalid continuation byte".

Definition unexpected_end (pos avail : nat) : decode_error :=
  DecodeError pos (pos + avail) "unexpected end of data".

(** Put one decoded code point in front of the rest of the text. *)
Definition push (c : N) (r : decode_error + str) : decode_error + str :=
  match r with
  | inl d => inl d
  | inr s => inr (c :: s)
  end.

(** Strict UTF-8 decoding, as CPython's decoder does it: shortest
    forms only, no surrogates, nothing above U+10FFFF. [pos] is the
    index of the head of [bs] in the whole input. *)
Fixpoint utf8_decode (pos : nat) (bs : bytes) : decode_error + str :=
  match bs with
  | [] => inr []
  | b1 :: r1 =>
    let c1 := Byte.to_N b1 in
    if c1 <? 0x80 then
      push c1
                    (utf8_decode (pos + 1) r1)
    else if c1 <? 0xC2 then
      inl (invalid_start pos)
    else if c1 <? 0xE0 then
      match r1 with
      | [] => inl (unexpected_end pos 1)
      | b2 :: r2 =>
        if negb (is_continuation b2) then inl (invalid_continuation pos 1)
        else
          push (N.shiftl (N.land c1 0x1F) 6 + low6 b2)
                    (utf8_decode (pos + 2) r2)
      end
    else if c1 <? 0xF0 then
      match r1 with
      | [] => inl (unexpected_end pos 1)
      | b2 :: r2 =>
        let c2 := Byte.to_N b2 in
        if negb (is_continuation b2)
           || (if c2 <? 0xA0 then c1 =? 0xE0 else c1 =? 0xED)
        then inl (invalid_continuation pos 1)
        else
          match r2 with
          | [] => inl (unexpected_end pos 2)
          | b3 :: r3 =>
            if negb (is_continuation b3) then inl (invalid_continuation pos 2)
            else
              push (N.shiftl (N.land c1 0x0F) 12 + N.shiftl (low6 b2) 6 + low6 b3)
                    (utf8_decode (pos + 3) r3)
          end
      end
    else if c1 <? 0xF5 then
      match r1 with
      | [] => inl (unexpected_end pos 1)
      | b2 :: r2 =>
        let c2 := Byte.to_N b2 in
        if negb (is_continuation b2)
           || (if c2 <? 0x90 then c1 =? 0xF0 else c1 =? 0xF4)
        then inl (invalid_continuation pos 1)
        else
          match r2 with
          | [] => inl (unexpected_end pos 2)
          | b3 :: r3 =>
            if negb (is_continuation b3) then inl (invalid_continuation pos 2)
            else
              match r3 with
              | [] => inl (unexpected_end pos 3)
              | b4 :: r4 =>
                if negb (is_continuation b4)
                then inl (invalid_continuation pos 3)
                else
                  push (N.shiftl (N.land c1 0x07) 18 + N.shiftl (low6 b2) 12
                        + N.shiftl (low6 b3) 6 + low6 b4)
                    (utf8_decode (pos + 4) r4)
              end
          end
      end
    else
      inl (invalid_start pos)
  end.

(** ISO-8859-1: every octet is the code point of the same number. *)
Definition latin1_decode (bs : bytes) : decode_error + str :=
  inr (map Byte.to_N bs).

(** US-ASCII: octets below 128 only. *)
Fixpoint ascii_decode (pos : nat) (bs : bytes) : decode_error + str :=
  match bs with
  | [] => inr []
  | b :: r =>
    if Byte.to_N b <? 0x80 then push (Byte.to_N b) (ascii_decode (pos + 1) r)
    else inl (DecodeError pos (pos + 1) "ordinal not in range(128)")
  end.

Definition codec_name (c : codec) : string :=
  match c with
  | utf_8 => "utf-8"
  | latin_1 => "latin-1"
  | ascii_ => "ascii"
  end.

Definition codec_decode (c : codec) (bs : bytes) : decode_error + str :=
  match c with
  | utf_8 => utf8_decode 0 bs
  | latin_1 => latin1_decode bs
  | ascii_ => ascii_decode 0 bs
  end.

(** *** The text of a [UnicodeDecodeError] *)

Definition hex_digit (n : N) : ascii :=
  ascii_of_N (if n <? 10 then 48 + n else 87 + n).

(** [%02x] of an octet. *)
Definition hex2 (b : byte) : string :=
  let c := Byte.to_N b in
  String (hex_digit (c / 16)) (String (hex_digit (c mod 16)) EmptyString).

(** [%d] of an index. *)
Definition dec (n : nat) : string := NilZero.string_of_uint (Nat.to_uint n).

(** [UnicodeDecodeError.__str__]: one offending byte is shown with its
    value, a longer slice with its two end indices. *)
Definition decode_error_str (c : codec) (bs : bytes) (d : decode_error) : string :=
  let head := "'" +:+ codec_name c +:+ "' codec can't decode " in
  match bs !! de_start d with
  | Some b =>
    if decide (de_stop d = S (de_start d)) then
      head +:+ "byte 0x" +:+ hex2 b +:+ " in position " +:+ dec (de_start d)
           +:+ ": " +:+ de_reason d
    else
      head +:+ "bytes in position " +:+ dec (de_start d) +:+ "-"
           +:+ dec (de_stop d - 1) +:+ ": " +:+ de_reason d
  | None =>
    head +:+ "bytes in position " +:+ dec (de_start d) +:+ "-"
         +:+ dec (de_stop d - 1) +:+ ": " +:+ de_reason d
  end.

(** *** UTF-8 text on a stream *)

(** The octet of a number below 256. *)
Definition byte_of_N (n : N) : byte :=
  match Byte.of_N n with Some b => b | None => x00 end.

(** The code points that UTF-8 can carry: all up to U+10FFFF but the
    surrogates. *)
Definition is_scalar (c : N) : bool :=
  (c <? 0xD800) || ((0xE000 <=? c) && (c <? 0x110000)).

(** The one to four octets a program writes for a code point when it
    prints text as UTF-8. *)
Definition utf8_encode_scalar (c : N) : bytes :=
  if c <? 0x80 then [byte_of_N c]
  else if c <? 0x800 then
    [byte_of_N (0xC0 + c / 64); byte_of_N (0x80 + c mod 64)]
  else if c <? 0x10000 then
    [byte_of_N (0xE0 + c / 4096); byte_of_N (0x80 + (c / 64) mod 64);
     byte_of_N (0x80 + c mod 64)]
  else
    [byte_of_N (0xF0 + c / 262144); byte_of_N (0x80 + (c / 4096) mod 64);
     byte_of_N (0x80 + (c / 64) mod 64); byte_of_N (0x80 + c mod 64)].

Definition utf8_encode (s : str) : bytes := flat_map utf8_encode_scalar s.

(** ** Awaiting the operating system *)

(** What an [await] (or any call) can do: give a value, raise, or never
    resume, as with a child that does not terminate. *)
Inductive outcome (A : Type) :=
| Returns (a : A)
| Raises (e : exn)
| Hangs.
Arguments Returns {A} a.
Arguments Raises {A} e.
Arguments Hangs {A}.

(** The platform under the interpreter. [spawn_shell] is what
    [asyncio.create_subprocess_shell] meets when it hands the command
    to the shell with both output streams piped: the identity of the
    new process object, or a fault. [wait_child] is what the child
    does once awaited: the bytes it wrote to its standard output and
    standard error and the status the process object records for it.
    [locale_encoding] is the text encoding of the platform locale. *)
Record platform := Platform {
  spawn_shell : str -> outcome N;
  wait_child : N -> outcome (bytes * bytes * Z);
  locale_encoding : codec
}.

(** The process objects of the interpreter, by identity, with what
    their [returncode] attribute holds; an object absent from the map
    has [returncode] equal to [None]. *)
Abbreviation heap := (gmap N Z).

(** The operations a call performs, in order. *)
Inductive event :=
| EvSpawn (command : str)
| EvCommunicate (process : N)
| EvDecode (b : bytes)
| EvCaught (e : exn).

(** A computation of the coroutine: it reads and updates the process
    objects and reports its outcome with the operations it performed. *)
Definition task (A : Type) : Type := heap -> outcome A * heap * list event.

Definition outcome_of {A} (r : outcome A * heap * list event) : outcome A := r.1.1.
Definition events_of {A} (r : outcome A * heap * list event) : list event := r.2.

#[global] Instance task_ret : MRet task :=
  fun A a h => (Returns a, h, []).

(** Sequencing: a fault or a hang of the first computation ends the
    whole. *)
#[global] Instance task_bind : MBind task :=
  fun A B k m h =>
    match m h with
    | (Returns a, h1, ev1) =>
      match k a h1 with
      | (r, h2, ev2) => (r, h2, ev1 ++ ev2)
      end
    | (Raises e, h1, ev1) => (Raises e, h1, ev1)
    | (Hangs, h1, ev1) => (Hangs, h1, ev1)
    end.

(** [try: body except Exception as e: handler(e)]. The clause matches
    instances of [Exception] and its subclasses only. *)
Definition try_except_Exception {A} (body : task A) (handler : exn -> task A)
  : task A :=
  fun h =>
    match body h with
    | (Raises e, h1, ev1) =>
      if issubclass_Exception (exn_class e) then
        match handler e h1 with
        | (r, h2, ev2) => (r, h2, ev1 ++ EvCaught e :: ev2)
        end
      else (Raises e, h1, ev1)
    | r => r
    end.

(** [await asyncio.create_subprocess_shell(command, stdout=PIPE,
    stderr=PIPE)]: a new process object, whose [returncode] is
    [None]. *)
Definition create_subprocess_shell (os : platform) (command : str) : task N :=
  fun h =>
    match spawn_shell os command with
    | Returns p => (Returns p, delete p h, [EvSpawn command])
    | Raises e => (Raises e, h, [EvSpawn command])
    | Hangs => (Hangs, h, [EvSpawn command])
    end.

(** [await process.communicate()]: both streams read to their end and
    the child waited for, which sets [returncode]. *)
Definition communicate (os : platform) (process : N) : task (bytes * bytes) :=
  fun h =>
    match wait_child os process with
    | Returns (out, err, rc) =>
      (Returns (out, err), <[process := rc]> h, [EvCommunicate process])
    | Raises e => (Raises e, h, [EvCommunicate process])
    | Hangs => (Hangs, h, [EvCommunicate process])
    end.

(** [process.returncode]. *)
Definition returncode (process : N) : task pyval :=
  fun h =>
    (Returns (match h !! process with Some rc => PyInt rc | None => PyNone end),
     h, []).

(** [b.decode(encoding, errors='strict')]. *)
Definition decode_with (encoding : codec) (b : bytes) : task str :=
  fun h =>
    match codec_decode encoding b with
    | inr s => (Returns s, h, [EvDecode b])
    | inl d =>
      (Raises (Exn UnicodeDecodeError (lit (decode_error_str encoding b d))),
       h, [EvDecode b])
    end.

(** [b.decode()]: the signature is
    [decode(encoding='utf-8', errors='strict')]. *)
Definition decode (b : bytes) : task str := decode_with utf_8 b.

(** The truth value of a [bytes] object: [len(b) != 0]. *)
Definition truthy (b : bytes) : bool := negb (Nat.eqb (length b) 0).

(** A dictionary display with the three keys of the source. *)
Definition dict (stdout stderr return_code : pyval) : pydict :=
  list_to_map
    [("stdout", stdout); ("stderr", stderr); ("return_code", return_code)].

(** ** The coroutine *)

(** The [try] block of [run_command]. *)
Definition run_command_body (os : platform) (command : str) : task pydict :=
  process ← create_subprocess_shell os command;
  '(stdout, stderr) ← communicate os process;
  out ← (if truthy stdout then decode stdout else mret []);
  err ← (if truthy stderr then decode stderr else mret []);
  rc ← returncode process;
  mret (dict (PyStr out) (PyStr err) rc).

(** The [except Exception as e] block. *)
Definition run_command_handler (e : exn) : task pydict :=
  mret (dict (PyStr [])
             (PyStr (lit "Error executing command: " ++ exn_str e))
             (PyInt (-1))).

Definition run_command (os : platform) (command : str) : task pydict :=
  try_except_Exception (run_command_body os command) run_command_handler.

(** *** The [return] inside the [try] block *)

(** The dictionary display of the [return] is evaluated inside the
    [try] block. [construct alloc d] is that evaluation when the
    interpreter meets [alloc] on building the dictionary [d]: it gives
    [d], or it raises (a [MemoryError], say). *)
Definition construct (alloc : outcome unit) (d : pydict) : task pydict :=
  fun h =>
    (match alloc with
     | Returns _ => Returns d
     | Raises e => Raises e
     | Hangs => Hangs
     end, h, []).

(** The [try] block with the evaluation of its [return] left to the
    interpreter. *)
Definition run_command_body_allocating (alloc : outcome unit)
    (os : platform) (command : str) : task pydict :=
  process ← create_subprocess_shell os command;
  '(stdout, stderr) ← communicate os process;
  out ← (if truthy stdout then decode stdout else mret []);
  err ← (if truthy stderr then decode stderr else mret []);
  rc ← returncode process;
  construct alloc (dict (PyStr out) (PyStr err) rc).

(** [run_command] with the evaluation of its [return] left to the
    interpreter; [run_command] itself is the case in which the
    dictionary is built. *)
Definition run_command_allocating (alloc : outcome unit)
    (os : platform) (command : str) : task pydict :=
  try_except_Exception (run_command_body_allocating alloc os command)
                       run_command_handler.

(** ** Specification vocabulary *)

(** The dictionary of the [except] block for a caught fault. *)
Definition error_result (e : exn) : pydict :=
  dict (PyStr []) (PyStr (lit "Error executing command: " ++ exn_str e))
       (PyInt (-1)).

(** The [UnicodeDecodeError] that [b.decode()] raises when the strict
    decoder stops with [d]. *)
Definition decode_fault (b : bytes) (d : decode_error) : exn :=
  Exn UnicodeDecodeError (lit (decode_error_str utf_8 b d)).

(** The [decode] calls that the conditional expression
    [b.decode() if b else ""] performs. *)
Definition decode_events (b : bytes) : list event :=
  if truthy b then [EvDecode b] else [].

(** The places of the [try] block where a fault can arise. *)
Inductive stage :=
  ProcessCreation | StreamCollection | Decoding | ResultConstruction.

(** [fault_at os command s e]: on platform [os], running [command]
    makes the [try] block raise [e] at stage [s]. *)
Inductive fault_at (os : platform) (command : str) : stage -> exn -> Prop :=
| fault_spawn e :
    spawn_shell os command = Raises e ->
    fault_at os command ProcessCreation e
| fault_communicate p e :
    spawn_shell os command = Returns p ->
    wait_child os p = Raises e ->
    fault_at os command StreamCollection e
| fault_decode_stdout p out err rc d :
    spawn_shell os command = Returns p ->
    wait_child os p = Returns (out, err, rc) ->
    codec_decode utf_8 out = inl d ->
    fault_at os command Decoding (decode_fault out d)
| fault_decode_stderr p out err rc s d :
    spawn_shell os command = Returns p ->
    wait_child os p = Returns (out, err, rc) ->
    codec_decode utf_8 out = inr s ->
    codec_decode utf_8 err = inl d ->
    fault_at os command Decoding (decode_fault err d).

(** [captured os command out err rc]: the shell was spawned and
    awaited, and the child left [out] and [err] on its two streams and
    reported [rc]. *)
Definition captured (os : platform) (command : str)
    (out err : bytes) (rc : Z) : Prop :=
  exists p, spawn_shell os command = Returns p
            /\ wait_child os p = Returns (out, err, rc).

(** [fault_in alloc os command s e]: the [try] block raises [e] at
    stage [s] when the interpreter meets [alloc] on building the
    result: a fault of one of the first three stages, or, once both
    streams have decoded, the fault of the dictionary display. *)
Inductive fault_in (alloc : outcome unit) (os : platform) (command : str)
  : stage -> exn -> Prop :=
| fault_before s e :
    fault_at os command s e ->
    fault_in alloc os command s e
| fault_construct p out err rc s t e :
    spawn_shell os command = Returns p ->
    wait_child os p = Returns (out, err, rc) ->
    codec_decode utf_8 out = inr s ->
    codec_decode utf_8 err = inr t ->
    alloc = Raises e ->
    fault_in alloc os command ResultConstruction e.

(** A result of the shape the tool declares: the three keys and no
    other, with text under [stdout] and [stderr] and an integer under
    [return_code]. *)
Definition well_formed (r : pydict) : Prop :=
  (exists s, r !! "stdout" = Some (PyStr s))
  /\ (exists s, r !! "stderr" = Some (PyStr s))
  /\ (exists z, r !! "return_code" = Some (PyInt z))
  /\ dom r = {["stdout"; "stderr"; "return_code"]}.

(** Two platforms show the same child behaviour for a command: the
    spawn ends the same way and, when it gives a process, the child
    ends the same way; the identities of the process objects may
    differ. *)
Definition same_child_behaviour (os1 os2 : platform) (command : str) : Prop :=
  match spawn_shell os1 command, spawn_shell os2 command with
  | Returns p1, Returns p2 => wait_child os1 p1 = wait_child os2 p2
  | Raises e1, Raises e2 => e1 = e2
  | Hangs, Hangs => True
  | _, _ => False
  end.

(** Neither await of the call hangs or raises a fault outside
    [Exception]. *)
Definition quiet {A} (w : outcome A) : Prop :=
  match w with
  | Returns _ => True
  | Raises e => issubclass_Exception (exn_class e) = true
  | Hangs => False
  end.

Definition awaits_settle (os : platform) (command : str) : Prop :=
  match spawn_shell os command with
  | Returns p => quiet (wait_child os p)
  | w => quiet w
  end.

Definition is_caught (ev : event) : bool :=
  match ev with EvCaught _ => true | _ => false end.

(** The [except] block was entered during the run. *)
Definition caught {A} (r : outcome A * heap * list event) : bool :=
  existsb is_caught (events_of r).

(** The call went through the [try] block to its [return]: the shell
    was spawned and awaited with the given captured bytes and status,
    and the [except] block was not entered. *)
Definition success_path (os : platform) (command : str) (h : heap)
    (out err : bytes) (rc : Z) : Prop :=
  captured os command out err rc /\ caught (run_command os command h) = false.

(** An await of the call never resumes. *)
Definition hangs (os : platform) (command : str) : Prop :=
  spawn_shell os command = Hangs
  \/ exists p, spawn_shell os command = Returns p /\ wait_child os p = Hangs.

(** The four ways a call can end, with the conditions on the platform
    that lead to each. *)
Inductive run_view (os : platform) (command : str) (h : heap)
  : outcome pydict * heap * list event -> Prop :=
| view_caught s e h1 ev :
    fault_at os command s e ->
    issubclass_Exception (exn_class e) = true ->
    (forall e', EvCaught e' ∉ ev) ->
    (forall b, EvDecode b ∈ ev -> b <> []) ->
    run_view os command h (Returns (error_result e), h1, ev ++ [EvCaught e])
| view_escaped s e h1 ev :
    fault_at os command s e ->
    issubclass_Exception (exn_class e) = false ->
    (forall e', EvCaught e' ∉ ev) ->
    (forall b, EvDecode b ∈ ev -> b <> []) ->
    run_view os command h (Raises e, h1, ev)
| view_hung h1 ev :
    hangs os command ->
    (forall e', EvCaught e' ∉ ev) ->
    (forall b, EvDecode b ∈ ev -> b <> []) ->
    run_view os command h (Hangs, h1, ev)
| view_completed p out err rc s t :
    spawn_shell os command = Returns p ->
    wait_child os p = Returns (out, err, rc) ->
    codec_decode utf_8 out = inr s ->
    codec_decode utf_8 err = inr t ->
    run_view os command h
      (Returns (dict (PyStr s) (PyStr t) (PyInt rc)), <[p := rc]> (delete p h),
       [EvSpawn command; EvCommunicate p] ++ decode_events out ++ decode_events err).

(** ** Scenarios *)

(** A platform on which every command spawns process 7 and the child
    behaves as given. *)
Definition child_does (w : outcome (bytes * bytes * Z)) : platform :=
  Platform (fun _ => Returns 7) (fun _ => w) utf_8.

(** Replacing the locale encoding of a platform. *)
Definition with_locale (os : platform) (c : codec) : platform :=
  Platform (spawn_shell os) (wait_child os) c.

(** The child prints [hello] and a newline and exits 0. *)
Definition echo_hello : platform :=
  child_does (Returns ([x68; x65; x6c; x6c; x6f; x0a], [], 0%Z)).

(** The child prints nothing and exits 0. *)
Definition silent : platform := child_does (Returns ([], [], 0%Z)).

(** The child prints the single byte 0xFF and exits 0. *)
Definition prints_ff : platform := child_does (Returns ([xff], [], 0%Z)).

(** The child prints the two bytes 0xC3 0xA9 and exits 0, on a
    platform whose locale encoding is ISO-8859-1. *)
Definition latin1_host : platform :=
  Platform (fun _ => Returns 7) (fun _ => Returns ([xc3; xa9], [], 0%Z)) latin_1.

(** The shell is ended by signal 1, which the process object records
    as -1. *)
Definition hung_up : platform := child_does (Returns ([], [], (-1)%Z)).

(** The task is cancelled while it awaits the child. *)
Definition cancelled : platform := child_does (Raises (Exn CancelledError [])).

(** The child never terminates. *)
Definition sleeper : platform := child_does Hangs.

(** There is no shell to run. *)
Definition no_shell : platform :=
  Platform
    (fun _ => Raises (Exn FileNotFoundError
                       (lit "[Errno 2] No such file or directory: '/bin/sh'")))
    (fun _ => Hangs) utf_8.

(** The second [echo hello], given another process object, on a
    platform with another locale and with the first process object
    still around. *)
Definition echo_hello_again : platform :=
  Platform (fun _ => Returns 8)
           (fun _ => Returns ([x68; x65; x6c; x6c; x6f; x0a], [], 0%Z)) latin_1.

(** ** Further vocabulary *)

(** Octets below 128. *)
Definition is_ascii (b : byte) : bool := Byte.to_N b <? 0x80.

(** Octets that occur in no UTF-8 text: 0xC0, 0xC1 and 0xF5 to 0xFF. *)
Definition outside_utf8 (b : byte) : bool :=
  let c := Byte.to_N b in (c =? 0xC0) || (c =? 0xC1) || (0xF5 <=? c).

(** [located pos bs d]: the error [d], found in the input [bs] whose
    head has index [pos], starts right behind a prefix of [bs] that is
    the UTF-8 form of some text, and covers one to three octets of
    [bs]. *)
Definition located (pos : nat) (bs : bytes) (d : decode_error) : Prop :=
  exists s r,
    bs = utf8_encode s ++ r
    /\ forallb is_scalar s = true
    /\ de_start d = (pos + length (utf8_encode s))%nat
    /\ (de_start d < de_stop d <= pos + length bs)%nat
    /\ (de_stop d <= de_start d + 3)%nat.

Definition is_spawn (ev : event) : bool :=
  match ev with EvSpawn _ => true | _ => false end.

Definition is_communicate (ev : event) : bool :=
  match ev with EvCommunicate _ => true | _ => false end.

Definition is_decode (ev : event) : bool :=
  match ev with EvDecode _ => true | _ => false end.

(** How many operations of a kind a run performed. *)
Definition count (kind : event -> bool) (evs : list event) : nat :=
  length (List.filter kind evs).

(** The child prints [hi], writes the byte 0xE9 to its standard error
    and exits 2. *)
Definition bad_stderr : platform :=
  child_does (Returns ([x68; x69], [xe9], 2%Z)).

(** The child prints [hi], writes [oops] to its standard error and
    exits 1. *)
Definition fails_politely : platform :=
  child_does (Returns ([x68; x69], [x6f; x6f; x70; x73], 1%Z)).

(** The child prints the byte 0xFF, writes [oops] to its standard
    error and exits 3. *)
Definition bad_stdout : platform :=
  child_does (Returns ([xff], [x6f; x6f; x70; x73], 3%Z)).

(** ** Equations of a run *)

Ltac run_unfold :=
  cbv [run_command try_except_Exception run_command_handler run_command_body
       mbind task_bind mret task_ret create_subprocess_shell communicate
       returncode decode decode_with].
Ltac run_step H := rewrite H; cbv beta iota zeta.

Lemma decode_nil : codec_decode utf_8 [] = inr [].
Proof. reflexivity. Qed.

Lemma decode_fails_truthy b d : codec_decode utf_8 b = inl d -> truthy b = true.
Proof. destruct b; [discriminate | reflexivity]. Qed.

Lemma decode_empty_text b s :
  codec_decode utf_8 b = inr s -> truthy b = false -> s = [].
Proof. destruct b; [cbv; congruence | discriminate]. Qed.

Section Runs.
Variables (os : platform) (command : str) (h : heap).

Lemma body_spawn_raises e :
  spawn_shell os command = Raises e ->
  run_command_body os command h = (Raises e, h, [EvSpawn command]).
Proof. intros H. run_unfold. now run_step H. Qed.

Lemma body_spawn_hangs :
  spawn_shell os command = Hangs ->
  run_command_body os command h = (Hangs, h, [EvSpawn command]).
Proof. intros H. run_unfold. now run_step H. Qed.

Lemma body_wait_raises p e :
  spawn_shell os command = Returns p ->
  wait_child os p = Raises e ->
  run_command_body os command h
  = (Raises e, delete p h, [EvSpawn command; EvCommunicate p]).
Proof. intros H1 H2. run_unfold. run_step H1. now run_step H2. Qed.

Lemma body_wait_hangs p :
  spawn_shell os command = Returns p ->
  wait_child os p = Hangs ->
  run_command_body os command h
  = (Hangs, delete p h, [EvSpawn command; EvCommunicate p]).
Proof. intros H1 H2. run_unfold. run_step H1. now run_step H2. Qed.

Lemma body_stdout_undecodable p out err rc d :
  spawn_shell os command = Returns p ->
  wait_child os p = Returns (out, err, rc) ->
  codec_decode utf_8 out = inl d ->
  run_command_body os command h
  = (Raises (decode_fault out d), <[p := rc]> (delete p h),
     [EvSpawn command; EvCommunicate p; EvDecode out]).
Proof.
  intros H1 H2 H3. run_unfold. run_step H1. run_step H2.
  rewrite (decode_fails_truthy _ _ H3). now run_step H3.
Qed.

Lemma body_stderr_undecodable p out err rc s d :
  spawn_shell os command = Returns p ->
  wait_child os p = Returns (out, err, rc) ->
  codec_decode utf_8 out = inr s ->
  codec_decode utf_8 err = inl d ->
  run_command_body os command h
  = (Raises (decode_fault err d), <[p := rc]> (delete p h),
     [EvSpawn command; EvCommunicate p] ++ decode_events out ++ [EvDecode err]).
Proof.
  intros H1 H2 H3 H4. run_unfold. run_step H1. run_step H2.
  rewrite (decode_fails_truthy _ _ H4). unfold decode_events.
  destruct (truthy out); [run_step H3 | cbv beta iota zeta];
    now run_step H4.
Qed.

Lemma body_completes p out err rc s t :
  spawn_shell os command = Returns p ->
  wait_child os p = Returns (out, err, rc) ->
  codec_decode utf_8 out = inr s ->
  codec_decode utf_8 err = inr t ->
  run_command_body os command h
  = (Returns (dict (PyStr s) (PyStr t) (PyInt rc)), <[p := rc]> (delete p h),
     [EvSpawn command; EvCommunicate p] ++ decode_events out ++ decode_events err).
Proof.
  intros H1 H2 H3 H4. run_unfold. run_step H1. run_step H2.
  unfold decode_events.
  destruct (truthy out) eqn:Tout, (truthy err) eqn:Terr;
    try run_step H3; try run_step H4; cbv beta iota zeta;
    rewrite lookup_insert_eq;
    try rewrite (decode_empty_text _ _ H3 Tout);
    try rewrite (decode_empty_text _ _ H4 Terr);
    try rewrite app_nil_r; reflexivity.
Qed.
End Runs.

(** ** The dictionary display *)

Lemma dict_stdout a b c : dict a b c !! "stdout" = Some a.
Proof. reflexivity. Qed.

Lemma dict_stderr a b c : dict a b c !! "stderr" = Some b.
Proof. reflexivity. Qed.

Lemma dict_return_code a b c : dict a b c !! "return_code" = Some c.
Proof. reflexivity. Qed.

Lemma dict_dom a b c : dom (dict a b c) = {["stdout"; "stderr"; "return_code"]}.
Proof.
  unfold dict. cbn [list_to_map foldr uncurry fst snd].
  rewrite !dom_insert_L, dom_empty_L. set_solver.
Qed.

Lemma dict_well_formed s t z : well_formed (dict (PyStr s) (PyStr t) (PyInt z)).
Proof.
  repeat split; eauto using dict_stdout, dict_stderr, dict_return_code, dict_dom.
Qed.

(** ** How a call ends *)

Lemma decode_events_spec b ev : ev ∈ decode_events b -> ev = EvDecode b /\ b <> [].
Proof.
  unfold decode_events. destruct b; cbn; [set_solver |].
  intros ->%list_elem_of_singleton. split; [reflexivity | discriminate].
Qed.

Lemma decode_events_nonempty b : b <> [] -> EvDecode b ∈ decode_events b.
Proof. destruct b; [congruence | intros _; cbn; set_solver]. Qed.

Lemma decode_fault_class b d :
  issubclass_Exception (exn_class (decode_fault b d)) = true.
Proof. reflexivity. Qed.

Ltac quiet_events :=
  repeat match goal with
  | |- forall _, _ => intros ?
  | |- _ ∉ _ => intros ?
  | |- _ <> _ => intros ?
  | |- _ /\ _ => split
  | H : _ ∈ _ ++ _ |- _ => apply elem_of_app in H; destruct H
  | H : _ ∈ _ :: _ |- _ => apply elem_of_cons in H; destruct H
  | H : _ ∈ [] |- _ => apply elem_of_nil in H; destruct H
  | H : _ ∈ decode_events _ |- _ => apply decode_events_spec in H; destruct H
  end;
  simplify_eq;
  try match goal with
  | H : codec_decode utf_8 [] = inl _ |- _ => discriminate H
  end.

Section Ends.
Variables (os : platform) (command : str) (h : heap).

Lemma run_of_caught e h1 ev :
  run_command_body os command h = (Raises e, h1, ev) ->
  issubclass_Exception (exn_class e) = true ->
  run_command os command h = (Returns (error_result e), h1, ev ++ [EvCaught e]).
Proof.
  intros Hb Hc. unfold run_command, try_except_Exception.
  rewrite Hb, Hc. reflexivity.
Qed.

Lemma run_of_escaped e h1 ev :
  run_command_body os command h = (Raises e, h1, ev) ->
  issubclass_Exception (exn_class e) = false ->
  run_command os command h = (Raises e, h1, ev).
Proof.
  intros Hb Hc. unfold run_command, try_except_Exception.
  rewrite Hb, Hc. reflexivity.
Qed.

Lemma run_of_hung h1 ev :
  run_command_body os command h = (Hangs, h1, ev) ->
  run_command os command h = (Hangs, h1, ev).
Proof.
  intros Hb. unfold run_command, try_except_Exception. now rewrite Hb.
Qed.

Lemma run_of_completed r h1 ev :
  run_command_body os command h = (Returns r, h1, ev) ->
  run_command os command h = (Returns r, h1, ev).
Proof.
  intros Hb. unfold run_command, try_except_Exception. now rewrite Hb.
Qed.

(** A fault of the [try] block, whatever its class, leaves the
    block at once. *)
Lemma fault_at_body s e :
  fault_at os command s e ->
  exists h1 ev,
    run_command_body os command h = (Raises e, h1, ev)
    /\ (forall e', EvCaught e' ∉ ev)
    /\ (forall b, EvDecode b ∈ ev -> b <> []).
Proof.
  intros [e0 H1 | p e0 H1 H2 | p out err rc d H1 H2 H3
          | p out err rc s0 d H1 H2 H3 H4].
  - eexists _, _; split; [apply body_spawn_raises, H1 | quiet_events].
  - eexists _, _; split; [eapply body_wait_raises; eassumption | quiet_events].
  - eexists _, _; split;
      [eapply body_stdout_undecodable; eassumption | quiet_events].
  - eexists _, _; split;
      [eapply body_stderr_undecodable; eassumption | quiet_events].
Qed.

Lemma run_of_fault s e :
  fault_at os command s e ->
  run_view os command h (run_command os command h).
Proof.
  intros F. destruct (fault_at_body s e F) as (h1 & ev & Hb & Hc & Hd).
  destruct (issubclass_Exception (exn_class e)) eqn:C.
  - rewrite (run_of_caught _ _ _ Hb C). eapply view_caught; eassumption.
  - rewrite (run_of_escaped _ _ _ Hb C). eapply view_escaped; eassumption.
Qed.

Lemma run_cases : run_view os command h (run_command os command h).
Proof.
  destruct (spawn_shell os command) as [p | e |] eqn:H1.
  - destruct (wait_child os p) as [[[out err] rc] | e |] eqn:H2.
    + destruct (codec_decode utf_8 out) as [d | s] eqn:H3.
      { eapply run_of_fault, fault_decode_stdout; eassumption. }
      destruct (codec_decode utf_8 err) as [d | t] eqn:H4.
      { eapply run_of_fault, fault_decode_stderr; eassumption. }
      rewrite (run_of_completed _ _ _
                 (body_completes os command h p out err rc s t H1 H2 H3 H4)).
      now apply view_completed.
    + eapply run_of_fault, fault_communicate; eassumption.
    + rewrite (run_of_hung _ _ (body_wait_hangs os command h p H1 H2)).
      apply view_hung; [right; eauto | quiet_events..].
  - eapply run_of_fault, fault_spawn; eassumption.
  - rewrite (run_of_hung _ _ (body_spawn_hangs os command h H1)).
    apply view_hung; [left; auto | quiet_events..].
Qed.
End Ends.

(** ** Facts about runs *)

Lemma caught_false_iff (ev : list event) :
  existsb is_caught ev = false <-> forall e, EvCaught e ∉ ev.
Proof.
  induction ev as [| x ev IH]; cbn.
  - split; [intros _ e H; inversion H | reflexivity].
  - rewrite orb_false_iff, IH. split.
    + intros [Hx Hev] e [Heq | H]%elem_of_cons; [| now apply (Hev e)].
      subst x. discriminate Hx.
    + intros H. split.
      * destruct x as [| | | e0]; try reflexivity.
        exfalso. apply (H e0). left.
      * intros e He. apply (H e). now right.
Qed.

Lemma caught_snoc (ev : list event) e : existsb is_caught (ev ++ [EvCaught e]) = true.
Proof. rewrite existsb_app. cbn. now rewrite orb_true_r. Qed.

(** *** Decoding what was encoded *)

Ltac arith := zify; Z.to_euclidean_division_equations; lia.

Ltac tests :=
  repeat (match goal with
          | |- context [N.ltb ?a ?b] => destruct (N.ltb_spec a b)
          | |- context [N.leb ?a ?b] => destruct (N.leb_spec a b)
          | |- context [N.eqb ?a ?b] => destruct (N.eqb_spec a b)
          end; try (exfalso; arith)).

Lemma to_N_byte_of_N n : n < 256 -> Byte.to_N (byte_of_N n) = n.
Proof.
  intros H. unfold byte_of_N.
  destruct (Byte.of_N n) as [b |] eqn:E.
  - now apply Byte.to_of_N in E.
  - apply Byte.of_N_None_iff in E. lia.
Qed.

Lemma is_scalar_spec c :
  is_scalar c = true <-> c < 0xD800 \/ 0xE000 <= c < 0x110000.
Proof.
  unfold is_scalar.
  rewrite orb_true_iff, andb_true_iff, !N.ltb_lt, N.leb_le. tauto.
Qed.

(** The strict decoder reads back one encoded code point and goes on
    behind it. *)
Lemma decode_scalar pos c rest :
  is_scalar c = true ->
  utf8_decode pos (utf8_encode_scalar c ++ rest)
  = push c (utf8_decode (pos + length (utf8_encode_scalar c)) rest).
Proof.
  intros S%is_scalar_spec. unfold utf8_encode_scalar.
  destruct (N.ltb_spec c 0x80); [| destruct (N.ltb_spec c 0x800);
    [| destruct (N.ltb_spec c 0x10000)]];
    cbn [app utf8_decode length]; unfold is_continuation, low6;
    rewrite !to_N_byte_of_N by arith;
    change 0x1F with (N.ones 5); change 0x0F with (N.ones 4);
    change 0x07 with (N.ones 3); change 0x3F with (N.ones 6);
    rewrite ?N.land_ones, ?N.shiftl_mul_pow2;
    tests; cbn [andb negb orb]; f_equal; arith.
Qed.

Lemma utf8_decode_encode pos s :
  forallb is_scalar s = true -> utf8_decode pos (utf8_encode s) = inr s.
Proof.
  revert pos. induction s as [| c s IH]; intros pos H; [reflexivity |].
  cbn [forallb] in H. apply andb_prop in H as [Hc Hs].
  cbn [utf8_encode flat_map]. rewrite decode_scalar by exact Hc.
  fold (utf8_encode s). now rewrite (IH _ Hs).
Qed.

Section Captured.
Variables (os : platform) (command : str) (h : heap).
Variables (out err : bytes) (rc : Z).
Hypothesis Hcap : captured os command out err rc.

Lemma captured_decoded s t :
  codec_decode utf_8 out = inr s ->
  codec_decode utf_8 err = inr t ->
  outcome_of (run_command os command h)
    = Returns (dict (PyStr s) (PyStr t) (PyInt rc))
  /\ caught (run_command os command h) = false
  /\ forall b, EvDecode b ∈ events_of (run_command os command h)
               <-> b <> [] /\ (b = out \/ b = err).
Proof.
  destruct Hcap as (p & H1 & H2). intros H3 H4.
  rewrite (run_of_completed _ _ _ _ _ _
             (body_completes os command h p out err rc s t H1 H2 H3 H4)).
  split; [reflexivity |]. split.
  - apply caught_false_iff. cbn [events_of snd]. quiet_events.
  - intros b. cbn [events_of snd]. split.
    + intros Hb. quiet_events; auto.
    + intros [Hne [-> | ->]]; rewrite !elem_of_app;
        auto using decode_events_nonempty.
Qed.

Lemma captured_stdout_undecodable d :
  codec_decode utf_8 out = inl d ->
  outcome_of (run_command os command h)
    = Returns (error_result (decode_fault out d))
  /\ caught (run_command os command h) = true.
Proof.
  destruct Hcap as (p & H1 & H2). intros H3.
  rewrite (run_of_caught _ _ _ _ _ _
             (body_stdout_undecodable os command h p out err rc d H1 H2 H3)
             (decode_fault_class _ _)).
  split; [reflexivity | apply caught_snoc].
Qed.

Lemma captured_stderr_undecodable s d :
  codec_decode utf_8 out = inr s ->
  codec_decode utf_8 err = inl d ->
  outcome_of (run_command os command h)
    = Returns (error_result (decode_fault err d))
  /\ caught (run_command os command h) = true.
Proof.
  destruct Hcap as (p & H1 & H2). intros H3 H4.
  rewrite (run_of_caught _ _ _ _ _ _
             (body_stderr_undecodable os command h p out err rc s d H1 H2 H3 H4)
             (decode_fault_class _ _)).
  split; [reflexivity | apply caught_snoc].
Qed.
End Captured.

(** On the success path both captured streams are valid UTF-8. *)
Lemma success_path_decoded os command h out err rc :
  success_path os command h out err rc ->
  exists s t, codec_decode utf_8 out = inr s /\ codec_decode utf_8 err = inr t.
Proof.
  intros [Hcap Hc].
  destruct (codec_decode utf_8 out) as [d | s] eqn:H3.
  { destruct (captured_stdout_undecodable _ _ h _ _ _ Hcap d H3) as [_ C].
    congruence. }
  destruct (codec_decode utf_8 err) as [d | t] eqn:H4.
  { destruct (captured_stderr_undecodable _ _ h _ _ _ Hcap s d H3 H4) as [_ C].
    congruence. }
  eauto.
Qed.

(** The outcome of a call as a function of what the platform does. *)
Lemma run_outcome os command h :
  outcome_of (run_command os command h)
  = match spawn_shell os command with
    | Returns p =>
      match wait_child os p with
      | Returns (out, err, rc) =>
        match codec_decode utf_8 out, codec_decode utf_8 err with
        | inl d, _ => Returns (error_result (decode_fault out d))
        | inr _, inl d => Returns (error_result (decode_fault err d))
        | inr s, inr t => Returns (dict (PyStr s) (PyStr t) (PyInt rc))
        end
      | Raises e =>
        if issubclass_Exception (exn_class e)
        then Returns (error_result e) else Raises e
      | Hangs => Hangs
      end
    | Raises e =>
      if issubclass_Exception (exn_class e)
      then Returns (error_result e) else Raises e
    | Hangs => Hangs
    end.
Proof.
  destruct (spawn_shell os command) as [p | e |] eqn:H1.
  - destruct (wait_child os p) as [[[out err] rc] | e |] eqn:H2.
    + assert (Hcap : captured os command out err rc) by (exists p; auto).
      destruct (codec_decode utf_8 out) as [d | s] eqn:H3.
      { apply (captured_stdout_undecodable _ _ h _ _ _ Hcap d H3). }
      destruct (codec_decode utf_8 err) as [d | t] eqn:H4.
      { apply (captured_stderr_undecodable _ _ h _ _ _ Hcap s d H3 H4). }
      apply (captured_decoded _ _ h _ _ _ Hcap s t H3 H4).
    + pose proof (body_wait_raises os command h p e H1 H2) as Hb.
      destruct (issubclass_Exception (exn_class e)) eqn:C.
      * now rewrite (run_of_caught _ _ _ _ _ _ Hb C).
      * now rewrite (run_of_escaped _ _ _ _ _ _ Hb C).
    + now rewrite (run_of_hung _ _ _ _ _ (body_wait_hangs os command h p H1 H2)).
  - pose proof (body_spawn_raises os command h e H1) as Hb.
    destruct (issubclass_Exception (exn_class e)) eqn:C.
    + now rewrite (run_of_caught _ _ _ _ _ _ Hb C).
    + now rewrite (run_of_escaped _ _ _ _ _ _ Hb C).
  - now rewrite (run_of_hung _ _ _ _ _ (body_spawn_hangs os command h H1)).
Qed.

(** ** The [return] inside the [try] block *)

(** Leaving the [return] to the interpreter changes a run only where
    the [try] block reaches its [return]. *)
Lemma body_allocating alloc os command h :
  run_command_body_allocating alloc os command h
  = match run_command_body os command h with
    | (Returns r, h1, ev) =>
      (match alloc with
       | Returns _ => Returns r
       | Raises e => Raises e
       | Hangs => Hangs
       end, h1, ev)
    | other => other
    end.
Proof.
  cbv [run_command_body_allocating run_command_body mbind task_bind mret
       task_ret create_subprocess_shell communicate returncode decode
       decode_with construct].
  destruct (spawn_shell os command) as [p | e |]; [| reflexivity..].
  destruct (wait_child os p) as [[[out err] rc] | e |]; [| reflexivity..].
  destruct (truthy out), (truthy err),
           (codec_decode utf_8 out), (codec_decode utf_8 err);
    try reflexivity; destruct alloc; reflexivity.
Qed.

Lemma run_command_allocating_built os command h :
  run_command_allocating (Returns ()) os command h = run_command os command h.
Proof.
  unfold run_command_allocating, run_command, try_except_Exception.
  rewrite body_allocating.
  now destruct (run_command_body os command h) as [[[r | e |] h1] ev].
Qed.

Lemma try_except_caught (body : task pydict) h e h1 ev :
  body h = (Raises e, h1, ev) ->
  issubclass_Exception (exn_class e) = true ->
  try_except_Exception body run_command_handler h
  = (Returns (error_result e), h1, ev ++ [EvCaught e]).
Proof.
  intros Hb C. unfold try_except_Exception. now rewrite Hb, C.
Qed.

(** Whatever the [try] block does, no fault of the class [Exception]
    leaves the [try] statement. *)
Lemma try_except_raises (body : task pydict) h e :
  outcome_of (try_except_Exception body run_command_handler h) = Raises e ->
  issubclass_Exception (exn_class e) = false.
Proof.
  unfold try_except_Exception.
  destruct (body h) as [[[r | e' |] h1] ev]; [discriminate | | discriminate].
  destruct (issubclass_Exception (exn_class e')) eqn:C; [discriminate |].
  now intros [= <-].
Qed.

(** A call whose awaits settle returns a well-formed result. *)
Lemma settled_run_returns os command h :
  awaits_settle os command ->
  exists r, outcome_of (run_command os command h) = Returns r /\ well_formed r.
Proof.
  unfold awaits_settle. intros A. rewrite run_outcome.
  destruct (spawn_shell os command) as [p | e |];
    [destruct (wait_child os p) as [[[out err] rc] | e |] | |];
    cbn in A; try contradiction; try rewrite A;
    [destruct (codec_decode utf_8 out), (codec_decode utf_8 err) | |];
    eexists; (split; [reflexivity |]);
    try unfold error_result; apply dict_well_formed.
Qed.

(** ** Three runs *)

Example echo_hello_run :
  run_command echo_hello (lit "echo hello") ∅
  = (Returns (dict (PyStr (lit "hello" ++ [10])) (PyStr []) (PyInt 0)),
     {[ 7 := 0%Z ]},
     [EvSpawn (lit "echo hello"); EvCommunicate 7;
      EvDecode [x68; x65; x6c; x6c; x6f; x0a]]).
Proof. vm_compute. reflexivity. Qed.

Example prints_ff_run :
  outcome_of (run_command prints_ff (lit "printf '\377'") ∅)
  = Returns
      (dict (PyStr [])
            (PyStr (lit ("Error executing command: 'utf-8' codec can't decode "
                         +:+ "byte 0xff in position 0: invalid start byte")))
            (PyInt (-1)))
  /\ caught (run_command prints_ff (lit "printf '\377'") ∅) = true.
Proof. split; vm_compute; reflexivity. Qed.

Example no_shell_run :
  events_of (run_command no_shell (lit "ls") ∅)
  = [EvSpawn (lit "ls");
     EvCaught (Exn FileNotFoundError
                 (lit "[Errno 2] No such file or directory: '/bin/sh'"))].
Proof. reflexivity. Qed.

(** ** The error path *)

(** C1, as amended. Every fault of the class [Exception] (or a
    subclass) raised in the [try] block, at process creation, at stream
    collection, at decoding or at result construction, is caught: the
    call returns the dictionary whose [stdout] is the empty string,
    whose [stderr] is ["Error executing command: "] followed by
    [str(e)], and whose [return_code] is -1. No fault of that class
    ever leaves the call. The first two parts speak of [run_command]
    as it runs when its dictionary is built; the next two of every way
    the evaluation of its [return] can end, which adds the fourth
    stage; the last says that the former is a case of the latter. *)
Theorem Exception_fault_is_returned os command h :
  (forall s e,
      fault_at os command s e ->
      issubclass_Exception (exn_class e) = true ->
      outcome_of (run_command os command h) = Returns (error_result e)
      /\ error_result e !! "stdout" = Some (PyStr [])
      /\ error_result e !! "stderr"
         = Some (PyStr (lit "Error executing command: " ++ exn_str e))
      /\ error_result e !! "return_code" = Some (PyInt (-1)))
  /\ (forall e,
         outcome_of (run_command os command h) = Raises e ->
         issubclass_Exception (exn_class e) = false)
  /\ (forall alloc s e,
         fault_in alloc os command s e ->
         issubclass_Exception (exn_class e) = true ->
         outcome_of (run_command_allocating alloc os command h)
         = Returns (error_result e))
  /\ (forall alloc e,
         outcome_of (run_command_allocating alloc os command h) = Raises e ->
         issubclass_Exception (exn_class e) = false)
  /\ run_command_allocating (Returns ()) os command h
     = run_command os command h.
Proof.
  split; [| split; [| split; [| split]]].
  - intros s e F C.
    destruct (fault_at_body os command h s e F) as (h1 & ev & Hb & _).
    rewrite (run_of_caught _ _ _ _ _ _ Hb C).
    repeat split.
  - intros e. apply try_except_raises.
  - intros alloc s e F C. unfold run_command_allocating.
    destruct F as [s e F | p out err rc s t e H1 H2 H3 H4 ->].
    + destruct (fault_at_body os command h s e F) as (h1 & ev & Hb & _).
      erewrite try_except_caught; [reflexivity | | exact C].
      rewrite body_allocating, Hb. reflexivity.
    + erewrite try_except_caught; [reflexivity | | exact C].
      rewrite body_allocating,
        (body_completes os command h p out err rc s t H1 H2 H3 H4).
      reflexivity.
  - intros alloc e. apply try_except_raises.
  - apply run_command_allocating_built.
Qed.

(** With no shell to spawn, the caller gets the error dictionary; and
    so it does when [echo hello] has run and the interpreter has no
    memory left for the dictionary of the [return]. *)
Lemma Exception_fault_is_returned_at_both_ends :
  (let e := Exn FileNotFoundError
              (lit "[Errno 2] No such file or directory: '/bin/sh'") in
   outcome_of (run_command no_shell (lit "ls") ∅) = Returns (error_result e)
   /\ error_result e !! "stdout" = Some (PyStr [])
   /\ error_result e !! "stderr"
      = Some (PyStr (lit "Error executing command: " ++ exn_str e))
   /\ error_result e !! "return_code" = Some (PyInt (-1)))
  /\ outcome_of (run_command_allocating (Raises (Exn MemoryError []))
                   echo_hello (lit "echo hello") ∅)
     = Returns (error_result (Exn MemoryError [])).
Proof.
  split.
  - intros e.
    apply (proj1 (Exception_fault_is_returned no_shell (lit "ls") ∅)
             ProcessCreation e).
    + apply fault_spawn. reflexivity.
    + reflexivity.
  - apply (proj1 (proj2 (proj2
             (Exception_fault_is_returned echo_hello (lit "echo hello") ∅)))
             (Raises (Exn MemoryError [])) ResultConstruction).
    + eapply (fault_construct _ _ _ 7); reflexivity.
    + reflexivity.
Defined.

(** C1, as stated, fails: a cancellation that arrives while the child
    is awaited is a fault raised during stream collection, and it is
    not turned into a result. *)
Lemma cancellation_is_not_returned :
  ~ (forall os command h s e,
        fault_at os command s e ->
        outcome_of (run_command os command h) = Returns (error_result e)).
Proof.
  intros H.
  specialize (H cancelled (lit "sleep 5") ∅ StreamCollection
                (Exn CancelledError [])).
  assert (F : fault_at cancelled (lit "sleep 5") StreamCollection
                (Exn CancelledError []))
    by (eapply fault_communicate; reflexivity).
  specialize (H F). discriminate H.
Qed.

(** ** The success path *)

(** C2, as amended. When the shell was spawned and awaited and both
    captured streams are valid UTF-8, the call returns the dictionary
    with the decoded standard output, the decoded standard error and
    the status the child reported. In particular a child that prints
    a fixed text as UTF-8, nothing on standard error, and exits 0
    gives that text, the empty string and 0. *)
Theorem completed_run_result os command h out err rc :
  captured os command out err rc ->
  (forall s t,
      codec_decode utf_8 out = inr s ->
      codec_decode utf_8 err = inr t ->
      outcome_of (run_command os command h)
      = Returns (dict (PyStr s) (PyStr t) (PyInt rc)))
  /\ (forall text,
         forallb is_scalar text = true ->
         out = utf8_encode text -> err = [] -> rc = 0%Z ->
         outcome_of (run_command os command h)
         = Returns (dict (PyStr text) (PyStr []) (PyInt 0))).
Proof.
  intros Hcap. split.
  - intros s t H3 H4.
    apply (captured_decoded os command h out err rc Hcap s t H3 H4).
  - intros text Hs -> -> ->.
    apply (captured_decoded os command h _ [] 0%Z Hcap);
      [apply utf8_decode_encode, Hs | reflexivity].
Qed.

(** [echo hello]. *)
Lemma completed_run_result_echo_hello :
  outcome_of (run_command echo_hello (lit "echo hello") ∅)
  = Returns (dict (PyStr (lit "hello" ++ [10])) (PyStr []) (PyInt 0)).
Proof.
  assert (Hcap : captured echo_hello (lit "echo hello")
                   (utf8_encode (lit "hello" ++ [10])) [] 0%Z)
    by (exists 7; split; reflexivity).
  apply (proj2 (completed_run_result echo_hello (lit "echo hello") ∅
                  _ _ _ Hcap) (lit "hello" ++ [10])); reflexivity.
Defined.

(** C2, as stated, fails: a child that was spawned and awaited, exits
    0 and prints a byte that is not UTF-8 gives a result whose
    [return_code] is not the child's. *)
Lemma undecodable_output_hides_exit_code :
  ~ (forall os command h out err rc,
        captured os command out err rc ->
        exists s t,
          outcome_of (run_command os command h)
          = Returns (dict (PyStr s) (PyStr t) (PyInt rc))).
Proof.
  intros H.
  destruct (H prints_ff (lit "printf '\377'") ∅ [xff] [] 0%Z) as (s & t & E).
  { exists 7. split; reflexivity. }
  apply (f_equal (fun o => match o with
                           | Returns r => r !! "return_code"
                           | _ => None
                           end)) in E.
  vm_compute in E. discriminate E.
Qed.

(** C3, as amended. When the shell was spawned and awaited there are
    two cases. If both captured streams are valid UTF-8 the [except]
    block is not entered and [return_code] is exactly the status the
    process reported, whatever integer that is. Otherwise the
    [except] block is entered and [return_code] is -1. *)
Theorem return_code_after_wait os command h out err rc :
  captured os command out err rc ->
  match codec_decode utf_8 out, codec_decode utf_8 err with
  | inr _, inr _ =>
    caught (run_command os command h) = false
    /\ exists r, outcome_of (run_command os command h) = Returns r
                 /\ r !! "return_code" = Some (PyInt rc)
  | _, _ =>
    caught (run_command os command h) = true
    /\ exists r, outcome_of (run_command os command h) = Returns r
                 /\ r !! "return_code" = Some (PyInt (-1))
  end.
Proof.
  intros Hcap.
  destruct (codec_decode utf_8 out) as [d | s] eqn:H3.
  { destruct (captured_stdout_undecodable _ _ h _ _ _ Hcap d H3) as [E C].
    split; [exact C | eexists; split; [exact E | reflexivity]]. }
  destruct (codec_decode utf_8 err) as [d | t] eqn:H4.
  { destruct (captured_stderr_undecodable _ _ h _ _ _ Hcap s d H3 H4) as [E C].
    split; [exact C | eexists; split; [exact E | reflexivity]]. }
  destruct (captured_decoded _ _ h _ _ _ Hcap s t H3 H4) as (E & C & _).
  split; [exact C | eexists; split; [exact E | reflexivity]].
Qed.

(** A shell ended by signal 1: -1 comes back on the success path. *)
Lemma return_code_after_wait_hung_up :
  caught (run_command hung_up (lit "kill -HUP $$") ∅) = false
  /\ exists r, outcome_of (run_command hung_up (lit "kill -HUP $$") ∅) = Returns r
               /\ r !! "return_code" = Some (PyInt (-1)).
Proof.
  assert (Hcap : captured hung_up (lit "kill -HUP $$") [] [] (-1)%Z)
    by (exists 7; split; reflexivity).
  exact (return_code_after_wait hung_up (lit "kill -HUP $$") ∅ _ _ _ Hcap).
Defined.

(** C3, as stated, fails on both counts. A child that was spawned and
    awaited and printed a byte that is not UTF-8 comes back through the
    [except] block with -1 in place of its status; and a child whose
    reported status is -1 comes back with -1 without the [except] block
    being entered. *)
Lemma minus_one_is_not_exclusive :
  ~ (forall os command h out err rc,
        captured os command out err rc ->
        caught (run_command os command h) = false
        /\ exists r, outcome_of (run_command os command h) = Returns r
                     /\ r !! "return_code" = Some (PyInt rc))
  /\ ~ (forall os command h r,
          outcome_of (run_command os command h) = Returns r ->
          r !! "return_code" = Some (PyInt (-1)) ->
          caught (run_command os command h) = true).
Proof.
  split.
  - intros H.
    destruct (H prints_ff (lit "printf '\377'") ∅ [xff] [] 0%Z) as [C _].
    { exists 7. split; reflexivity. }
    vm_compute in C. discriminate C.
  - intros H.
    specialize (H hung_up (lit "kill -HUP $$") ∅ _ eq_refl eq_refl).
    vm_compute in H. discriminate H.
Qed.

(** C4. On the success path a captured stream of zero bytes gives the
    empty string in its field, and [decode] is never called on the
    empty input; a child that prints nothing on either stream and
    exits 0 gives two empty strings and 0. *)
Theorem empty_stream_is_empty_text os command h out err rc :
  success_path os command h out err rc ->
  (exists r,
      outcome_of (run_command os command h) = Returns r
      /\ (out = [] -> r !! "stdout" = Some (PyStr []))
      /\ (err = [] -> r !! "stderr" = Some (PyStr []))
      /\ (out = [] -> err = [] -> rc = 0%Z ->
          r = dict (PyStr []) (PyStr []) (PyInt 0)))
  /\ EvDecode [] ∉ events_of (run_command os command h).
Proof.
  intros S. destruct (success_path_decoded _ _ _ _ _ _ S) as (s & t & H3 & H4).
  destruct S as [Hcap _].
  destruct (captured_decoded _ _ h _ _ _ Hcap s t H3 H4) as (E & _ & D).
  split.
  - exists (dict (PyStr s) (PyStr t) (PyInt rc)). split; [exact E |].
    repeat split.
    + intros ->. rewrite decode_nil in H3. now simplify_eq.
    + intros ->. rewrite decode_nil in H4. now simplify_eq.
    + intros -> -> ->. rewrite decode_nil in H3, H4. now simplify_eq.
  - intros [Hne _]%D. now apply Hne.
Qed.

(** A child that prints nothing and exits 0. *)
Lemma empty_stream_is_empty_text_silent :
  outcome_of (run_command silent (lit "true") ∅)
  = Returns (dict (PyStr []) (PyStr []) (PyInt 0))
  /\ EvDecode [] ∉ events_of (run_command silent (lit "true") ∅).
Proof.
  assert (S : success_path silent (lit "true") ∅ [] [] 0%Z)
    by (split; [exists 7; split; reflexivity | reflexivity]).
  destruct (empty_stream_is_empty_text silent (lit "true") ∅ [] [] 0%Z S)
    as [(r & E & _ & _ & R) D].
  split; [| exact D].
  rewrite E. f_equal. apply R; reflexivity.
Defined.

(** C5, as amended. On the success path each non-empty captured
    stream is decoded as UTF-8, the default of [bytes.decode], and the
    result does not depend on the locale encoding of the platform. *)
Theorem streams_are_decoded_as_utf_8 os command h out err rc :
  success_path os command h out err rc ->
  (exists r,
      outcome_of (run_command os command h) = Returns r
      /\ (out <> [] ->
          exists s, codec_decode utf_8 out = inr s
                    /\ r !! "stdout" = Some (PyStr s)
                    /\ EvDecode out ∈ events_of (run_command os command h))
      /\ (err <> [] ->
          exists t, codec_decode utf_8 err = inr t
                    /\ r !! "stderr" = Some (PyStr t)
                    /\ EvDecode err ∈ events_of (run_command os command h)))
  /\ forall c, run_command (with_locale os c) command h = run_command os command h.
Proof.
  intros S. destruct (success_path_decoded _ _ _ _ _ _ S) as (s & t & H3 & H4).
  destruct S as [Hcap _].
  destruct (captured_decoded _ _ h _ _ _ Hcap s t H3 H4) as (E & _ & D).
  split; [| reflexivity].
  exists (dict (PyStr s) (PyStr t) (PyInt rc)). split; [exact E |]. split.
  - intros Hne. exists s. repeat split; [exact H3 |]. apply D. auto.
  - intros Hne. exists t. repeat split; [exact H4 |]. apply D. auto.
Qed.

(** On a host whose locale is ISO-8859-1, the bytes C3 A9 still come
    back as the one code point U+00E9. *)
Lemma streams_are_decoded_as_utf_8_latin1_host :
  exists r,
    outcome_of (run_command latin1_host (lit "cat f") ∅) = Returns r
    /\ r !! "stdout" = Some (PyStr [0xE9])
    /\ EvDecode [xc3; xa9] ∈ events_of (run_command latin1_host (lit "cat f") ∅).
Proof.
  assert (S : success_path latin1_host (lit "cat f") ∅ [xc3; xa9] [] 0%Z)
    by (split; [exists 7; split; reflexivity | reflexivity]).
  destruct (streams_are_decoded_as_utf_8 latin1_host (lit "cat f") ∅
              [xc3; xa9] [] 0%Z S) as [(r & E & A & _) _].
  destruct A as (s & Hs & Hr & Hev); [discriminate |].
  injection Hs as <-.
  exists r. repeat split; assumption.
Defined.

(** C5, as stated, fails: on a host whose locale encoding is
    ISO-8859-1 the bytes C3 A9 decode to two code points in the locale
    encoding, and [stdout] holds one. *)
Lemma locale_encoding_is_not_used :
  ~ (forall os command h out err rc,
        success_path os command h out err rc ->
        out <> [] ->
        exists s r,
          codec_decode (locale_encoding os) out = inr s
          /\ outcome_of (run_command os command h) = Returns r
          /\ r !! "stdout" = Some (PyStr s)).
Proof.
  intros H.
  destruct (H latin1_host (lit "cat f") ∅ [xc3; xa9] [] 0%Z)
    as (s & r & H1 & H2 & H3).
  { split; [exists 7; split; reflexivity | reflexivity]. }
  { discriminate. }
  vm_compute in H1. injection H1 as <-.
  injection H2 as <-. vm_compute in H3. discriminate H3.
Qed.

(** ** Every way out of a call *)

Lemma error_result_well_formed e : well_formed (error_result e).
Proof. unfold error_result. apply dict_well_formed. Qed.

Lemma fault_at_settles os command s e :
  fault_at os command s e ->
  (awaits_settle os command <-> issubclass_Exception (exn_class e) = true).
Proof.
  unfold awaits_settle.
  intros [e0 H1 | p e0 H1 H2 | p out err rc d H1 H2 H3
          | p out err rc s0 d H1 H2 H3 H4];
    rewrite H1; try rewrite H2; cbn; tauto.
Qed.

Lemma hangs_unsettled os command : hangs os command -> ~ awaits_settle os command.
Proof.
  unfold awaits_settle.
  intros [H1 | (p & H1 & H2)]; rewrite H1; try rewrite H2; cbn; tauto.
Qed.

(** C6, as amended. A call returns a result exactly when neither of
    its two awaits hangs or raises a fault outside [Exception]; and
    every result it returns, from the [try] block or from the [except]
    block, has text under [stdout] and under [stderr], an integer
    under [return_code], and no other key. *)
Theorem returned_results_are_well_formed os command h :
  ((exists r, outcome_of (run_command os command h) = Returns r)
   <-> awaits_settle os command)
  /\ (forall r, outcome_of (run_command os command h) = Returns r ->
                well_formed r).
Proof.
  pose proof (run_cases os command h) as V.
  inversion V as [s e h1 ev F C _ _ E | s e h1 ev F C _ _ E | h1 ev Hh _ _ E
                  | p out err rc s t H1 H2 H3 H4 E];
    cbn [outcome_of fst].
  - split.
    + split; [intros _; now apply (fault_at_settles _ _ _ _ F) | eauto].
    + intros r [= <-]. apply error_result_well_formed.
  - split; [| discriminate]. split.
    + intros [r Hr]. discriminate Hr.
    + intros A. apply (fault_at_settles _ _ _ _ F) in A. congruence.
  - split; [| discriminate]. split.
    + intros [r Hr]. discriminate Hr.
    + intros A. now apply hangs_unsettled in Hh.
  - split.
    + split; [intros _ | eauto].
      unfold awaits_settle. rewrite H1, H2. exact I.
    + intros r [= <-]. apply dict_well_formed.
Qed.

(** The error dictionary of an undecodable output is well formed. *)
Lemma returned_results_are_well_formed_prints_ff :
  exists r, outcome_of (run_command prints_ff (lit "printf '\377'") ∅) = Returns r
            /\ well_formed r.
Proof.
  destruct (returned_results_are_well_formed prints_ff (lit "printf '\377'") ∅)
    as [[_ H1] H2].
  destruct (H1 I) as [r Hr].
  exists r. split; [exact Hr | exact (H2 r Hr)].
Defined.

(** C6, as stated, fails: a call cancelled while it awaits the child
    returns no result, it raises. *)
Lemma cancelled_call_returns_nothing :
  ~ (forall os command h,
        exists r, outcome_of (run_command os command h) = Returns r
                  /\ well_formed r).
Proof.
  intros H. destruct (H cancelled (lit "sleep 5") ∅) as (r & E & _).
  discriminate E.
Qed.

(** Nor does a call whose child never terminates. *)
Lemma sleeper_returns_nothing :
  outcome_of (run_command sleeper (lit "sleep infinity") ∅) = Hangs.
Proof. reflexivity. Qed.

(** ** Determinism *)

Lemma same_behaviour_same_outcome os1 os2 command h1 h2 :
  same_child_behaviour os1 os2 command ->
  outcome_of (run_command os1 command h1)
  = outcome_of (run_command os2 command h2).
Proof.
  unfold same_child_behaviour. intros S. rewrite !run_outcome.
  destruct (spawn_shell os1 command) as [p1 | e1 |],
           (spawn_shell os2 command) as [p2 | e2 |];
    try contradiction; [now rewrite S | now subst | reflexivity].
Qed.

(** C7. Two invocations with the same command that observe the same
    child behaviour, and whose awaits settle, both return a result;
    the two results are well formed and hold the same text under
    [stdout], the same text under [stderr] and the same integer under
    [return_code]: they are the same dictionary. Neither the process
    objects left by earlier calls nor the identity of the new one
    matters. *)
Theorem same_behaviour_same_result os1 os2 command h1 h2 :
  same_child_behaviour os1 os2 command ->
  awaits_settle os1 command ->
  exists r1 r2 out err rc,
    outcome_of (run_command os1 command h1) = Returns r1
    /\ outcome_of (run_command os2 command h2) = Returns r2
    /\ well_formed r1 /\ well_formed r2
    /\ (r1 !! "stdout" = Some (PyStr out) /\ r2 !! "stdout" = Some (PyStr out))
    /\ (r1 !! "stderr" = Some (PyStr err) /\ r2 !! "stderr" = Some (PyStr err))
    /\ (r1 !! "return_code" = Some (PyInt rc)
        /\ r2 !! "return_code" = Some (PyInt rc))
    /\ r1 = r2.
Proof.
  intros S A.
  destruct (settled_run_returns os1 command h1 A) as (r & E & W).
  pose proof (same_behaviour_same_outcome os1 os2 command h1 h2 S) as E'.
  rewrite E in E'. symmetry in E'.
  destruct W as ((out & Ho) & (err & He) & (rc & Hr) & D).
  exists r, r, out, err, rc.
  repeat split; eauto.
Qed.

Lemma same_behaviour_same_result_echo_hello :
  exists r1 r2 out err rc,
    outcome_of (run_command echo_hello (lit "echo hello") ∅) = Returns r1
    /\ outcome_of (run_command echo_hello_again (lit "echo hello")
                     {[ 7 := 0%Z ]}) = Returns r2
    /\ well_formed r1 /\ well_formed r2
    /\ (r1 !! "stdout" = Some (PyStr out) /\ r2 !! "stdout" = Some (PyStr out))
    /\ (r1 !! "stderr" = Some (PyStr err) /\ r2 !! "stderr" = Some (PyStr err))
    /\ (r1 !! "return_code" = Some (PyInt rc)
        /\ r2 !! "return_code" = Some (PyInt rc))
    /\ r1 = r2.
Proof.
  apply (same_behaviour_same_result echo_hello echo_hello_again).
  - reflexivity.
  - exact I.
Defined.

(** C8. On the success path [return_code] is the integer the process
    object reports, unchanged, for every integer. *)
Theorem return_code_is_passed_through os command h out err rc :
  success_path os command h out err rc ->
  exists r, outcome_of (run_command os command h) = Returns r
            /\ r !! "return_code" = Some (PyInt rc).
Proof.
  intros S. destruct (success_path_decoded _ _ _ _ _ _ S) as (s & t & H3 & H4).
  destruct S as [Hcap _].
  destruct (captured_decoded _ _ h _ _ _ Hcap s t H3 H4) as (E & _).
  eexists. split; [exact E | reflexivity].
Qed.

(** A reported -1 comes back as -1. *)
Lemma return_code_is_passed_through_minus_one :
  exists r, outcome_of (run_command hung_up (lit "kill -HUP $$") ∅) = Returns r
            /\ r !! "return_code" = Some (PyInt (-1)).
Proof.
  apply (return_code_is_passed_through hung_up (lit "kill -HUP $$") ∅
           [] [] (-1)%Z).
  split; [exists 7; split; reflexivity | reflexivity].
Defined.

(** C9. The [except] block is entered for faults of the class
    [Exception] only; a fault outside it, such as a cancellation or a
    keyboard interrupt, raised in the [try] block is not turned into
    a result and leaves [run_command] as it is. *)
Theorem only_Exception_is_caught os command h :
  (forall e, EvCaught e ∈ events_of (run_command os command h) ->
             issubclass_Exception (exn_class e) = true)
  /\ (forall s e,
         fault_at os command s e ->
         issubclass_Exception (exn_class e) = false ->
         outcome_of (run_command os command h) = Raises e
         /\ caught (run_command os command h) = false)
  /\ issubclass_Exception CancelledError = false
  /\ issubclass_Exception KeyboardInterrupt = false.
Proof.
  split; [| split; [| split; reflexivity]].
  - intros e.
    pose proof (run_cases os command h) as V.
    inversion V as [s e0 h1 ev F C N _ E | s e0 h1 ev F C N _ E | h1 ev Hh N _ E
                    | p out err rc s t H1 H2 H3 H4 E];
      cbn [events_of snd]; intros Hin.
    + apply elem_of_app in Hin as [Hin | Hin]; [now apply N in Hin |].
      apply list_elem_of_singleton in Hin. now simplify_eq.
    + now apply N in Hin.
    + now apply N in Hin.
    + quiet_events.
  - intros s e F C.
    destruct (fault_at_body os command h s e F) as (h1 & ev & Hb & N & _).
    rewrite (run_of_escaped _ _ _ _ _ _ Hb C). split; [reflexivity |].
    now apply caught_false_iff.
Qed.

(** A cancellation during the wait leaves the call as a raised
    [CancelledError]. *)
Lemma only_Exception_is_caught_cancelled :
  outcome_of (run_command cancelled (lit "sleep 5") ∅)
  = Raises (Exn CancelledError [])
  /\ caught (run_command cancelled (lit "sleep 5") ∅) = false.
Proof.
  apply (proj1 (proj2 (only_Exception_is_caught cancelled (lit "sleep 5") ∅))
           StreamCollection).
  - eapply fault_communicate; reflexivity.
  - reflexivity.
Defined.

(** ** The decoder, read backwards *)

Lemma byte_of_N_eq n b : n = Byte.to_N b -> byte_of_N n = b.
Proof. intros ->. unfold byte_of_N. now rewrite Byte.of_to_N. Qed.

Lemma is_continuation_spec b :
  is_continuation b = true <-> 0x80 <= Byte.to_N b < 0xC0.
Proof.
  unfold is_continuation. rewrite andb_true_iff, N.leb_le, N.ltb_lt. tauto.
Qed.

Ltac bits :=
  unfold low6;
  change 0x1F with (N.ones 5); change 0x0F with (N.ones 4);
  change 0x07 with (N.ones 3); change 0x3F with (N.ones 6);
  rewrite ?N.land_ones, ?N.shiftl_mul_pow2.

Lemma encode_1 b1 :
  Byte.to_N b1 < 0x80 ->
  utf8_encode_scalar (Byte.to_N b1) = [b1] /\ is_scalar (Byte.to_N b1) = true.
Proof.
  intros H. unfold utf8_encode_scalar.
  tests. split; [f_equal; now apply byte_of_N_eq | apply is_scalar_spec; lia].
Qed.

Lemma encode_2 b1 b2 :
  0xC2 <= Byte.to_N b1 < 0xE0 ->
  is_continuation b2 = true ->
  let c := N.shiftl (N.land (Byte.to_N b1) 0x1F) 6 + low6 b2 in
  utf8_encode_scalar c = [b1; b2] /\ is_scalar c = true.
Proof.
  intros H1 H2%is_continuation_spec c. subst c. unfold utf8_encode_scalar. bits.
  tests. split.
  - repeat f_equal; apply byte_of_N_eq; arith.
  - apply is_scalar_spec; arith.
Qed.

Lemma encode_3 b1 b2 b3 :
  0xE0 <= Byte.to_N b1 < 0xF0 ->
  is_continuation b2 = true ->
  is_continuation b3 = true ->
  (if Byte.to_N b2 <? 0xA0 then Byte.to_N b1 =? 0xE0 else Byte.to_N b1 =? 0xED)
  = false ->
  let c := N.shiftl (N.land (Byte.to_N b1) 0x0F) 12
           + N.shiftl (low6 b2) 6 + low6 b3 in
  utf8_encode_scalar c = [b1; b2; b3] /\ is_scalar c = true.
Proof.
  intros H1 H2%is_continuation_spec H3%is_continuation_spec H4 c. subst c.
  assert (H5 : ~ (Byte.to_N b2 < 0xA0 /\ Byte.to_N b1 = 0xE0)
               /\ ~ (0xA0 <= Byte.to_N b2 /\ Byte.to_N b1 = 0xED)).
  { destruct (N.ltb_spec (Byte.to_N b2) 0xA0);
      apply N.eqb_neq in H4; lia. }
  clear H4. unfold utf8_encode_scalar. bits.
  tests. split.
  - repeat f_equal; apply byte_of_N_eq; arith.
  - apply is_scalar_spec; arith.
Qed.

Lemma encode_4 b1 b2 b3 b4 :
  0xF0 <= Byte.to_N b1 < 0xF5 ->
  is_continuation b2 = true ->
  is_continuation b3 = true ->
  is_continuation b4 = true ->
  (if Byte.to_N b2 <? 0x90 then Byte.to_N b1 =? 0xF0 else Byte.to_N b1 =? 0xF4)
  = false ->
  let c := N.shiftl (N.land (Byte.to_N b1) 0x07) 18
           + N.shiftl (low6 b2) 12 + N.shiftl (low6 b3) 6 + low6 b4 in
  utf8_encode_scalar c = [b1; b2; b3; b4] /\ is_scalar c = true.
Proof.
  intros H1 H2%is_continuation_spec H3%is_continuation_spec
         H4%is_continuation_spec H5 c. subst c.
  assert (H6 : ~ (Byte.to_N b2 < 0x90 /\ Byte.to_N b1 = 0xF0)
               /\ ~ (0x90 <= Byte.to_N b2 /\ Byte.to_N b1 = 0xF4)).
  { destruct (N.ltb_spec (Byte.to_N b2) 0x90);
      apply N.eqb_neq in H5; lia. }
  clear H5. unfold utf8_encode_scalar. bits.
  tests. split.
  - repeat f_equal; apply byte_of_N_eq; arith.
  - apply is_scalar_spec; arith.
Qed.

Lemma push_inr c r s :
  push c r = inr s -> exists s', r = inr s' /\ s = c :: s'.
Proof. destruct r; [discriminate | intros [= <-]; eauto]. Qed.

Lemma utf8_encode_cons c s : utf8_encode (c :: s) = utf8_encode_scalar c ++ utf8_encode s.
Proof. reflexivity. Qed.

Lemma utf8_decode_inv_bounded n :
  forall bs pos s,
    (length bs <= n)%nat ->
    utf8_decode pos bs = inr s ->
    utf8_encode s = bs /\ forallb is_scalar s = true.
Proof.
  induction n as [| n IH]; intros bs pos s Hlen H.
  { destruct bs; [| cbn in Hlen; lia]. injection H as <-. now split. }
  destruct bs as [| b1 r1]; [injection H as <-; now split |].
  cbn [utf8_decode] in H. cbn [length] in Hlen.
  destruct (N.ltb_spec (Byte.to_N b1) 0x80) as [L1 | L1].
  { apply push_inr in H as (s' & E & ->).
    apply IH in E as [E1 E2]; [| lia].
    destruct (encode_1 b1 L1) as [A B].
    rewrite utf8_encode_cons, A, E1. cbn [forallb]. now rewrite B, E2. }
  destruct (N.ltb_spec (Byte.to_N b1) 0xC2) as [L2 | L2]; [discriminate |].
  destruct (N.ltb_spec (Byte.to_N b1) 0xE0) as [L3 | L3].
  { destruct r1 as [| b2 r2]; [discriminate |].
    destruct (is_continuation b2) eqn:C2; [| discriminate].
    cbn [negb] in H. cbn [length] in Hlen.
    apply push_inr in H as (s' & E & ->).
    apply IH in E as [E1 E2]; [| lia].
    destruct (encode_2 b1 b2 (conj L2 L3) C2) as [A B].
    rewrite utf8_encode_cons, A, E1. cbn [forallb]. now rewrite B, E2. }
  destruct (N.ltb_spec (Byte.to_N b1) 0xF0) as [L4 | L4].
  { destruct r1 as [| b2 r2]; [discriminate |].
    destruct (is_continuation b2) eqn:C2; [| discriminate].
    cbn [negb orb] in H.
    destruct (if Byte.to_N b2 <? 0xA0 then Byte.to_N b1 =? 0xE0
              else Byte.to_N b1 =? 0xED) eqn:G; [discriminate |].
    destruct r2 as [| b3 r3]; [discriminate |].
    destruct (is_continuation b3) eqn:C3; [| discriminate].
    cbn [negb] in H. cbn [length] in Hlen.
    apply push_inr in H as (s' & E & ->).
    apply IH in E as [E1 E2]; [| lia].
    destruct (encode_3 b1 b2 b3 (conj L3 L4) C2 C3 G) as [A B].
    rewrite utf8_encode_cons, A, E1. cbn [forallb]. now rewrite B, E2. }
  destruct (N.ltb_spec (Byte.to_N b1) 0xF5) as [L5 | L5]; [| discriminate].
  destruct r1 as [| b2 r2]; [discriminate |].
  destruct (is_continuation b2) eqn:C2; [| discriminate].
  cbn [negb orb] in H.
  destruct (if Byte.to_N b2 <? 0x90 then Byte.to_N b1 =? 0xF0
            else Byte.to_N b1 =? 0xF4) eqn:G; [discriminate |].
  destruct r2 as [| b3 r3]; [discriminate |].
  destruct (is_continuation b3) eqn:C3; [| discriminate].
  destruct r3 as [| b4 r4]; [discriminate |].
  destruct (is_continuation b4) eqn:C4; [| discriminate].
  cbn [negb] in H. cbn [length] in Hlen.
  apply push_inr in H as (s' & E & ->).
  apply IH in E as [E1 E2]; [| lia].
  destruct (encode_4 b1 b2 b3 b4 (conj L4 L5) C2 C3 C4 G) as [A B].
  rewrite utf8_encode_cons, A, E1. cbn [forallb]. now rewrite B, E2.
Qed.

Lemma utf8_decode_inv pos bs s :
  utf8_decode pos bs = inr s ->
  utf8_encode s = bs /\ forallb is_scalar s = true.
Proof. apply (utf8_decode_inv_bounded (length bs)). lia. Qed.

Lemma push_inl c r d : push c r = inl d -> r = inl d.
Proof. destruct r; [now intros [= ->] | discriminate]. Qed.

Lemma located_here pos bs d :
  de_start d = pos ->
  (pos < de_stop d <= pos + length bs)%nat ->
  (de_stop d <= pos + 3)%nat ->
  located pos bs d.
Proof.
  intros H1 H2 H3. exists [], bs. cbn [utf8_encode flat_map app length].
  repeat split; lia.
Qed.

Lemma located_later pos c enc bs d :
  utf8_encode_scalar c = enc ->
  is_scalar c = true ->
  located (pos + length enc) bs d ->
  located pos (enc ++ bs) d.
Proof.
  intros A B (s & r & -> & Hs & H1 & H2 & H3).
  exists (c :: s), r. rewrite utf8_encode_cons, A, <- app_assoc.
  cbn [forallb]. rewrite B, Hs, !length_app in *.
  repeat split; lia.
Qed.

Lemma utf8_decode_located_bounded n :
  forall bs pos d,
    (length bs <= n)%nat ->
    utf8_decode pos bs = inl d ->
    located pos bs d.
Proof.
  induction n as [| n IH]; intros bs pos d Hlen H.
  { destruct bs; [discriminate | cbn in Hlen; lia]. }
  destruct bs as [| b1 r1]; [discriminate |].
  cbn [utf8_decode] in H. cbn [length] in Hlen.
  destruct (N.ltb_spec (Byte.to_N b1) 0x80) as [L1 | L1].
  { apply push_inl, IH in H; [| lia].
    destruct (encode_1 b1 L1) as [A B].
    apply (located_later pos _ [b1] r1 d A B H). }
  destruct (N.ltb_spec (Byte.to_N b1) 0xC2) as [L2 | L2].
  { injection H as <-. apply located_here; cbn; lia. }
  destruct (N.ltb_spec (Byte.to_N b1) 0xE0) as [L3 | L3].
  { destruct r1 as [| b2 r2]; [injection H as <-; apply located_here; cbn; lia |].
    destruct (is_continuation b2) eqn:C2;
      [| injection H as <-; apply located_here; cbn; lia].
    cbn [negb] in H. cbn [length] in Hlen.
    apply push_inl, IH in H; [| lia].
    destruct (encode_2 b1 b2 (conj L2 L3) C2) as [A B].
    apply (located_later pos _ [b1; b2] r2 d A B H). }
  destruct (N.ltb_spec (Byte.to_N b1) 0xF0) as [L4 | L4].
  { destruct r1 as [| b2 r2]; [injection H as <-; apply located_here; cbn; lia |].
    destruct (is_continuation b2) eqn:C2;
      [| injection H as <-; apply located_here; cbn; lia].
    cbn [negb orb] in H.
    destruct (if Byte.to_N b2 <? 0xA0 then Byte.to_N b1 =? 0xE0
              else Byte.to_N b1 =? 0xED) eqn:G;
      [injection H as <-; apply located_here; cbn; lia |].
    destruct r2 as [| b3 r3]; [injection H as <-; apply located_here; cbn; lia |].
    destruct (is_continuation b3) eqn:C3;
      [| injection H as <-; apply located_here; cbn; lia].
    cbn [negb] in H. cbn [length] in Hlen.
    apply push_inl, IH in H; [| lia].
    destruct (encode_3 b1 b2 b3 (conj L3 L4) C2 C3 G) as [A B].
    apply (located_later pos _ [b1; b2; b3] r3 d A B H). }
  destruct (N.ltb_spec (Byte.to_N b1) 0xF5) as [L5 | L5];
    [| injection H as <-; apply located_here; cbn; lia].
  destruct r1 as [| b2 r2]; [injection H as <-; apply located_here; cbn; lia |].
  destruct (is_continuation b2) eqn:C2;
    [| injection H as <-; apply located_here; cbn; lia].
  cbn [negb orb] in H.
  destruct (if Byte.to_N b2 <? 0x90 then Byte.to_N b1 =? 0xF0
            else Byte.to_N b1 =? 0xF4) eqn:G;
    [injection H as <-; apply located_here; cbn; lia |].
  destruct r2 as [| b3 r3]; [injection H as <-; apply located_here; cbn; lia |].
  destruct (is_continuation b3) eqn:C3;
    [| injection H as <-; apply located_here; cbn; lia].
  destruct r3 as [| b4 r4]; [injection H as <-; apply located_here; cbn; lia |].
  destruct (is_continuation b4) eqn:C4;
    [| injection H as <-; apply located_here; cbn; lia].
  cbn [negb] in H. cbn [length] in Hlen.
  apply push_inl, IH in H; [| lia].
  destruct (encode_4 b1 b2 b3 b4 (conj L4 L5) C2 C3 C4 G) as [A B].
  apply (located_later pos _ [b1; b2; b3; b4] r4 d A B H).
Qed.

Lemma utf8_decode_located pos bs d :
  utf8_decode pos bs = inl d -> located pos bs d.
Proof. apply (utf8_decode_located_bounded (length bs)). lia. Qed.

(** Whether and to what a stream decodes does not depend on where it
    starts. *)
Lemma utf8_decode_any_pos pos pos' bs s :
  utf8_decode pos bs = inr s -> utf8_decode pos' bs = inr s.
Proof. intros [<- Hs]%utf8_decode_inv. now apply utf8_decode_encode. Qed.

Lemma decode_encode_app pos s b :
  forallb is_scalar s = true ->
  utf8_decode pos (utf8_encode s ++ b)
  = match utf8_decode (pos + length (utf8_encode s)) b with
    | inr t => inr (s ++ t)
    | inl d => inl d
    end.
Proof.
  revert pos. induction s as [| c s IH]; intros pos H.
  - cbn [utf8_encode flat_map app length]. rewrite Nat.add_0_r.
    now destruct (utf8_decode pos b).
  - cbn [forallb] in H. apply andb_prop in H as [Hc Hs].
    rewrite utf8_encode_cons, <- app_assoc, decode_scalar by exact Hc.
    rewrite (IH _ Hs), length_app, Nat.add_assoc.
    now destruct (utf8_decode _ b).
Qed.

Lemma utf8_decode_ascii pos bs :
  forallb is_ascii bs = true -> utf8_decode pos bs = inr (map Byte.to_N bs).
Proof.
  revert pos. induction bs as [| b bs IH]; intros pos H; [reflexivity |].
  cbn [forallb] in H. apply andb_prop in H as [Hb Hbs].
  unfold is_ascii in Hb. cbn [utf8_decode map]. rewrite Hb.
  now rewrite (IH _ Hbs).
Qed.

Lemma encode_scalar_length c :
  (1 <= length (utf8_encode_scalar c) <= 4)%nat.
Proof.
  unfold utf8_encode_scalar.
  destruct (c <? 0x80), (c <? 0x800), (c <? 0x10000); cbn; lia.
Qed.

Lemma encode_length s :
  (length s <= length (utf8_encode s) <= 4 * length s)%nat.
Proof.
  induction s as [| c s IH]; [cbn; lia |].
  rewrite utf8_encode_cons, length_app. cbn [length].
  pose proof (encode_scalar_length c). lia.
Qed.

Lemma encode_scalar_inside c b :
  is_scalar c = true -> b ∈ utf8_encode_scalar c -> outside_utf8 b = false.
Proof.
  intros S%is_scalar_spec. unfold utf8_encode_scalar.
  destruct (N.ltb_spec c 0x80); [| destruct (N.ltb_spec c 0x800);
    [| destruct (N.ltb_spec c 0x10000)]];
    intros Hin;
    repeat (apply elem_of_cons in Hin as [-> | Hin]);
    try (apply elem_of_nil in Hin; contradiction);
    unfold outside_utf8; rewrite to_N_byte_of_N by arith;
    cbv zeta; tests; reflexivity.
Qed.

Lemma encode_inside s b :
  forallb is_scalar s = true -> b ∈ utf8_encode s -> outside_utf8 b = false.
Proof.
  induction s as [| c s IH]; intros H Hin.
  - now apply elem_of_nil in Hin.
  - cbn [forallb] in H. apply andb_prop in H as [Hc Hs].
    rewrite utf8_encode_cons in Hin. apply elem_of_app in Hin as [Hin | Hin].
    + now apply (encode_scalar_inside c).
    + now apply IH.
Qed.

Lemma decoded_bytes_inside bs s b :
  codec_decode utf_8 bs = inr s -> b ∈ bs -> outside_utf8 b = false.
Proof. intros [<- Hs]%utf8_decode_inv. now apply encode_inside. Qed.

(** ** More about decoding *)

Lemma decode_error_in_range bs d :
  codec_decode utf_8 bs = inl d ->
  (de_start d < length bs)%nat
  /\ (de_start d < de_stop d <= length bs)%nat
  /\ (de_stop d <= de_start d + 3)%nat
  /\ exists s, codec_decode utf_8 (take (de_start d) bs) = inr s.
Proof.
  intros (s & r & -> & Hs & H1 & H2 & H3)%utf8_decode_located.
  cbn [Nat.add] in H1, H2.
  repeat split; try lia.
  exists s. rewrite H1, take_app_length.
  now apply utf8_decode_encode.
Qed.

(** Decoding goes through concatenation behind a valid chunk: the text
    of the whole is the text of the chunk followed by the text of the
    rest, and the whole fails exactly when the rest does. *)
Theorem decode_of_concatenation a b s :
  codec_decode utf_8 a = inr s ->
  match codec_decode utf_8 b with
  | inr t => codec_decode utf_8 (a ++ b) = inr (s ++ t)
  | inl _ => exists d, codec_decode utf_8 (a ++ b) = inl d
  end.
Proof.
  intros [<- Hs]%utf8_decode_inv.
  unfold codec_decode. rewrite (decode_encode_app 0 s b Hs).
  destruct (utf8_decode 0 b) as [d | t] eqn:E.
  - destruct (utf8_decode (0 + length (utf8_encode s)) b)
      as [d' | t'] eqn:E'; [eauto |].
    apply (utf8_decode_any_pos _ 0%nat) in E'. congruence.
  - now rewrite (utf8_decode_any_pos _ (0 + length (utf8_encode s)) _ _ E).
Qed.

Lemma decode_of_concatenation_two_chunks :
  codec_decode utf_8 ([xc3; xa9] ++ [x21]) = inr ([0xE9] ++ [0x21]).
Proof.
  exact (decode_of_concatenation [xc3; xa9] [x21] [0xE9] eq_refl).
Defined.

(** ** The operations of a call, in order *)

(** The operations of a call as a function of what the platform
    does. *)
Lemma run_events os command h :
  events_of (run_command os command h)
  = EvSpawn command ::
    match spawn_shell os command with
    | Returns p =>
      EvCommunicate p ::
      match wait_child os p with
      | Returns (out, err, rc) =>
        match codec_decode utf_8 out with
        | inl d => [EvDecode out; EvCaught (decode_fault out d)]
        | inr _ =>
          decode_events out ++
          match codec_decode utf_8 err with
          | inl d => [EvDecode err; EvCaught (decode_fault err d)]
          | inr _ => decode_events err
          end
        end
      | Raises e => if issubclass_Exception (exn_class e) then [EvCaught e] else []
      | Hangs => []
      end
    | Raises e => if issubclass_Exception (exn_class e) then [EvCaught e] else []
    | Hangs => []
    end.
Proof.
  destruct (spawn_shell os command) as [p | e |] eqn:H1.
  - destruct (wait_child os p) as [[[out err] rc] | e |] eqn:H2.
    + destruct (codec_decode utf_8 out) as [d | s] eqn:H3.
      { now rewrite (run_of_caught _ _ _ _ _ _
                 (body_stdout_undecodable os command h p out err rc d H1 H2 H3)
                 (decode_fault_class _ _)). }
      destruct (codec_decode utf_8 err) as [d | t] eqn:H4.
      { rewrite (run_of_caught _ _ _ _ _ _
                 (body_stderr_undecodable os command h p out err rc s d
                    H1 H2 H3 H4)
                 (decode_fault_class _ _)).
        cbn [events_of snd app]. now rewrite <- app_assoc. }
      now rewrite (run_of_completed _ _ _ _ _ _
                 (body_completes os command h p out err rc s t H1 H2 H3 H4)).
    + pose proof (body_wait_raises os command h p e H1 H2) as Hb.
      destruct (issubclass_Exception (exn_class e)) eqn:C.
      * now rewrite (run_of_caught _ _ _ _ _ _ Hb C).
      * now rewrite (run_of_escaped _ _ _ _ _ _ Hb C).
    + now rewrite (run_of_hung _ _ _ _ _ (body_wait_hangs os command h p H1 H2)).
  - pose proof (body_spawn_raises os command h e H1) as Hb.
    destruct (issubclass_Exception (exn_class e)) eqn:C.
    + now rewrite (run_of_caught _ _ _ _ _ _ Hb C).
    + now rewrite (run_of_escaped _ _ _ _ _ _ Hb C).
  - now rewrite (run_of_hung _ _ _ _ _ (body_spawn_hangs os command h H1)).
Qed.

Ltac last_caught :=
  let e := fresh "e" in
  let Hin := fresh "Hin" in
  intros e Hin;
  repeat (apply elem_of_cons in Hin as [Hin | Hin];
          [try discriminate Hin |]);
  try (apply elem_of_nil in Hin; contradiction);
  simplify_eq;
  first [ exists []; reflexivity
        | eexists [_]; reflexivity
        | eexists [_; _]; reflexivity
        | eexists [_; _; _]; reflexivity ].

(** A call asks for one process, for the command it was given, before
    it does anything else, and never for a second one: a failed spawn
    or wait is not tried again. It awaits at most one child, decodes at
    most two streams and enters the [except] block at most once, as
    its last operation. *)
Theorem one_spawn_no_retry os command h :
  exists rest,
    events_of (run_command os command h) = EvSpawn command :: rest
    /\ count is_spawn rest = 0%nat
    /\ (count is_communicate rest <= 1)%nat
    /\ (count is_decode rest <= 2)%nat
    /\ (count is_caught rest <= 1)%nat
    /\ forall e, EvCaught e ∈ rest -> exists ev, rest = ev ++ [EvCaught e].
Proof.
  eexists. split; [apply run_events |].
  unfold count, decode_events.
  repeat match goal with
         | |- context [match ?x with _ => _ end] => destruct x eqn:?
         | |- context [if ?x then _ else _] => destruct x eqn:?
         end; cbn; repeat split; try lia; last_caught.
Qed.

(** A call awaits no process but the one its spawn gave, and decodes
    nothing but the two streams that process left: never an empty
    stream, and the standard error only once the standard output has
    decoded. *)
Theorem only_captured_streams_are_decoded os command h :
  (forall p, EvCommunicate p ∈ events_of (run_command os command h) ->
             spawn_shell os command = Returns p)
  /\ (forall b, EvDecode b ∈ events_of (run_command os command h) ->
                b <> []
                /\ exists out err rc,
                    captured os command out err rc
                    /\ (b = out
                        \/ (b = err
                            /\ exists s, codec_decode utf_8 out = inr s))).
Proof.
  rewrite run_events. split.
  - intros p Hin.
    repeat match goal with
           | H : context [match ?x with _ => _ end] |- _ => destruct x eqn:?
           | H : context [if ?x then _ else _] |- _ => destruct x eqn:?
           end; quiet_events; reflexivity.
  - intros b Hin.
    destruct (spawn_shell os command) as [p | e |] eqn:H1;
      [| destruct (issubclass_Exception (exn_class e)); quiet_events
       | quiet_events].
    destruct (wait_child os p) as [[[out err] rc] | e |] eqn:H2;
      [| destruct (issubclass_Exception (exn_class e)); quiet_events
       | quiet_events].
    assert (Hcap : captured os command out err rc) by (exists p; auto).
    destruct (codec_decode utf_8 out) as [d | s] eqn:H3.
    { quiet_events; eauto 10. }
    destruct (codec_decode utf_8 err) as [d | t] eqn:H4; quiet_events;
      eauto 10.
Qed.

Lemma only_captured_streams_are_decoded_bad_stderr :
  [xe9] <> []
  /\ exists out err rc,
      captured bad_stderr (lit "hi") out err rc
      /\ ([xe9] = out
          \/ ([xe9] = err /\ exists s, codec_decode utf_8 out = inr s)).
Proof.
  apply (proj2 (only_captured_streams_are_decoded bad_stderr (lit "hi") ∅)).
  vm_compute. do 3 apply list_elem_of_further. apply list_elem_of_here.
Defined.

(** ** What comes back of the captured bytes *)

Lemma Returns_inj {A} (a b : A) : Returns a = Returns b -> a = b.
Proof. intros H. now injection H. Qed.

Lemma dict_inj a b c a' b' c' :
  dict a b c = dict a' b' c' -> a = a' /\ b = b' /\ c = c'.
Proof.
  intros E.
  pose proof (f_equal (fun m : pydict => m !! "stdout") E) as E1.
  pose proof (f_equal (fun m : pydict => m !! "stderr") E) as E2.
  pose proof (f_equal (fun m : pydict => m !! "return_code") E) as E3.
  cbv beta in E1, E2, E3.
  rewrite !dict_stdout in E1. rewrite !dict_stderr in E2.
  rewrite !dict_return_code in E3. now simplify_eq.
Qed.

Lemma success_path_text os command h out err rc :
  success_path os command h out err rc ->
  exists s t,
    outcome_of (run_command os command h)
    = Returns (dict (PyStr s) (PyStr t) (PyInt rc))
    /\ (utf8_encode s = out /\ forallb is_scalar s = true)
    /\ (utf8_encode t = err /\ forallb is_scalar t = true).
Proof.
  intros S. destruct (success_path_decoded _ _ _ _ _ _ S) as (s & t & H3 & H4).
  destruct S as [Hcap _].
  destruct (captured_decoded _ _ h _ _ _ Hcap s t H3 H4) as (E & _).
  exists s, t. split; [exact E |].
  split; eapply utf8_decode_inv; eassumption.
Qed.

(** A child that writes only bytes below 128 never sends the call
    through the [except] block: each byte comes back as the code point
    of the same number, on both streams, with the child's status. *)
Theorem ascii_output_comes_back_verbatim os command h out err rc :
  captured os command out err rc ->
  forallb is_ascii out = true ->
  forallb is_ascii err = true ->
  outcome_of (run_command os command h)
  = Returns (dict (PyStr (map Byte.to_N out)) (PyStr (map Byte.to_N err))
                  (PyInt rc))
  /\ caught (run_command os command h) = false.
Proof.
  intros Hcap Ho He.
  destruct (captured_decoded _ _ h _ _ _ Hcap
              (map Byte.to_N out) (map Byte.to_N err)) as (E & C & _);
    [apply utf8_decode_ascii, Ho | apply utf8_decode_ascii, He |].
  split; assumption.
Qed.

Lemma ascii_output_comes_back_verbatim_fails_politely :
  outcome_of (run_command fails_politely (lit "sh -c 'echo -n hi; exit 1'") ∅)
  = Returns (dict (PyStr (lit "hi")) (PyStr (lit "oops")) (PyInt 1))
  /\ caught (run_command fails_politely (lit "sh -c 'echo -n hi; exit 1'") ∅)
     = false.
Proof.
  apply (ascii_output_comes_back_verbatim fails_politely _ ∅
           [x68; x69] [x6f; x6f; x70; x73] 1%Z).
  - exists 7. split; reflexivity.
  - reflexivity.
  - reflexivity.
Defined.

(** On the success path nothing of the captured bytes is lost,
    replaced or normalised: the text under [stdout], written again as
    UTF-8, is byte for byte what the child wrote to its standard
    output, and likewise for [stderr]; the text holds no surrogate and
    nothing above U+10FFFF. *)
Theorem success_path_is_lossless os command h out err rc :
  success_path os command h out err rc ->
  exists s t,
    outcome_of (run_command os command h)
    = Returns (dict (PyStr s) (PyStr t) (PyInt rc))
    /\ utf8_encode s = out /\ forallb is_scalar s = true
    /\ utf8_encode t = err /\ forallb is_scalar t = true.
Proof.
  intros (s & t & E & [E1 S1] & [E2 S2])%success_path_text.
  exists s, t. auto.
Qed.

Lemma success_path_is_lossless_latin1_host :
  exists s t,
    outcome_of (run_command latin1_host (lit "cat f") ∅)
    = Returns (dict (PyStr s) (PyStr t) (PyInt 0))
    /\ utf8_encode s = [xc3; xa9] /\ forallb is_scalar s = true
    /\ utf8_encode t = [] /\ forallb is_scalar t = true.
Proof.
  apply (success_path_is_lossless latin1_host (lit "cat f") ∅ [xc3; xa9] [] 0%Z).
  split; [exists 7; split; reflexivity | reflexivity].
Defined.

(** On the success path the result tells the captured output apart:
    two calls that return the same dictionary captured the same bytes
    on both streams and the same status. *)
Theorem equal_results_equal_captures
    os1 command1 h1 out1 err1 rc1 os2 command2 h2 out2 err2 rc2 :
  success_path os1 command1 h1 out1 err1 rc1 ->
  success_path os2 command2 h2 out2 err2 rc2 ->
  outcome_of (run_command os1 command1 h1)
  = outcome_of (run_command os2 command2 h2) ->
  out1 = out2 /\ err1 = err2 /\ rc1 = rc2.
Proof.
  intros (s1 & t1 & E1 & [<- _] & [<- _])%success_path_text
         (s2 & t2 & E2 & [<- _] & [<- _])%success_path_text E.
  rewrite E1, E2 in E. apply Returns_inj, dict_inj in E as (? & ? & ?).
  now simplify_eq.
Qed.

Lemma equal_results_equal_captures_echo_hello :
  [x68; x65; x6c; x6c; x6f; x0a] = [x68; x65; x6c; x6c; x6f; x0a]
  /\ @nil byte = [] /\ 0%Z = 0%Z.
Proof.
  apply (equal_results_equal_captures
           echo_hello (lit "echo hello") ∅ _ _ _
           echo_hello_again (lit "echo hello") {[ 7 := 0%Z ]} _ _ _).
  - split; [exists 7; split; reflexivity | reflexivity].
  - split; [exists 8; split; reflexivity | reflexivity].
  - vm_compute. reflexivity.
Defined.

(** A byte that occurs in no UTF-8 text (0xC0, 0xC1, 0xF5 to 0xFF),
    anywhere in either captured stream, sends the call through the
    [except] block: the result is the error dictionary of a
    [UnicodeDecodeError], whatever else the child wrote and whatever
    its status. *)
Theorem bytes_outside_utf8_force_error_result os command h out err rc b :
  captured os command out err rc ->
  b ∈ out \/ b ∈ err ->
  outside_utf8 b = true ->
  caught (run_command os command h) = true
  /\ exists e, outcome_of (run_command os command h) = Returns (error_result e)
               /\ exn_class e = UnicodeDecodeError.
Proof.
  intros Hcap Hin Hb.
  destruct (codec_decode utf_8 out) as [d | s] eqn:H3.
  { destruct (captured_stdout_undecodable _ _ h _ _ _ Hcap d H3) as [E C].
    split; [exact C | eexists; split; [exact E | reflexivity]]. }
  destruct (codec_decode utf_8 err) as [d | t] eqn:H4.
  { destruct (captured_stderr_undecodable _ _ h _ _ _ Hcap s d H3 H4) as [E C].
    split; [exact C | eexists; split; [exact E | reflexivity]]. }
  destruct Hin as [Hin | Hin];
    [apply (decoded_bytes_inside _ _ _ H3) in Hin
    | apply (decoded_bytes_inside _ _ _ H4) in Hin]; congruence.
Qed.

Lemma bytes_outside_utf8_force_error_result_prints_ff :
  caught (run_command prints_ff (lit "printf '\377'") ∅) = true
  /\ exists e,
      outcome_of (run_command prints_ff (lit "printf '\377'") ∅)
      = Returns (error_result e)
      /\ exn_class e = UnicodeDecodeError.
Proof.
  apply (bytes_outside_utf8_force_error_result prints_ff _ ∅ [xff] [] 0%Z xff).
  - exists 7. split; reflexivity.
  - left. apply list_elem_of_here.
  - reflexivity.
Defined.

(** When the standard output does not decode, the standard error is
    never decoded: the one [decode] of the call is that of the standard
    output, and the result is the error dictionary of its fault,
    whatever the child wrote to its standard error and whatever its
    status. *)
Theorem undecodable_stdout_hides_stderr os command h out err rc d :
  captured os command out err rc ->
  codec_decode utf_8 out = inl d ->
  outcome_of (run_command os command h)
  = Returns (error_result (decode_fault out d))
  /\ count is_decode (events_of (run_command os command h)) = 1%nat
  /\ forall b, EvDecode b ∈ events_of (run_command os command h) -> b = out.
Proof.
  intros Hcap H3.
  split; [apply (captured_stdout_undecodable _ _ h _ _ _ Hcap d H3) |].
  destruct Hcap as (p & H1 & H2).
  rewrite run_events, H1, H2, H3. split; [reflexivity |].
  intros b Hin. quiet_events. reflexivity.
Qed.

Lemma undecodable_stdout_hides_stderr_bad_stdout :
  outcome_of (run_command bad_stdout (lit "cat blob") ∅)
  = Returns (error_result
               (decode_fault [xff] (DecodeError 0 1 "invalid start byte")))
  /\ count is_decode (events_of (run_command bad_stdout (lit "cat blob") ∅))
     = 1%nat
  /\ forall b, EvDecode b ∈ events_of (run_command bad_stdout (lit "cat blob") ∅)
               -> b = [xff].
Proof.
  apply (undecodable_stdout_hides_stderr bad_stdout _ ∅
           [xff] [x6f; x6f; x70; x73] 3%Z).
  - exists 7. split; reflexivity.
  - reflexivity.
Defined.

(** On the success path each text has at most as many code points as
    its stream has bytes, and at least a quarter as many. *)
Theorem text_is_no_longer_than_stream os command h out err rc :
  success_path os command h out err rc ->
  exists s t,
    outcome_of (run_command os command h)
    = Returns (dict (PyStr s) (PyStr t) (PyInt rc))
    /\ (length s <= length out <= 4 * length s)%nat
    /\ (length t <= length err <= 4 * length t)%nat.
Proof.
  intros (s & t & E & [<- _] & [<- _])%success_path_text.
  exists s, t. auto using encode_length.
Qed.

Lemma text_is_no_longer_than_stream_latin1_host :
  exists s t,
    outcome_of (run_command latin1_host (lit "cat f") ∅)
    = Returns (dict (PyStr s) (PyStr t) (PyInt 0))
    /\ (length s <= length [xc3; xa9] <= 4 * length s)%nat
    /\ (length t <= length (@nil byte) <= 4 * length t)%nat.
Proof.
  apply (text_is_no_longer_than_stream latin1_host (lit "cat f") ∅
           [xc3; xa9] [] 0%Z).
  split; [exists 7; split; reflexivity | reflexivity].
Defined.

(** When a call that captured the child's output goes through the
    [except] block, what it reports is the decode fault of one of the
    two streams, the standard output first. The fault lies inside
    that stream: it starts at one of its indices, covers one to three
    of its bytes, and everything in front of it is valid UTF-8. *)
Theorem reported_decode_fault_is_located os command h out err rc :
  captured os command out err rc ->
  caught (run_command os command h) = true ->
  exists b d,
    (b = out \/ (b = err /\ exists s, codec_decode utf_8 out = inr s))
    /\ codec_decode utf_8 b = inl d
    /\ outcome_of (run_command os command h)
       = Returns (error_result (decode_fault b d))
    /\ (de_start d < de_stop d <= length b)%nat
    /\ (de_stop d <= de_start d + 3)%nat
    /\ exists s, codec_decode utf_8 (take (de_start d) b) = inr s.
Proof.
  intros Hcap C.
  destruct (codec_decode utf_8 out) as [d | s] eqn:H3.
  { destruct (captured_stdout_undecodable _ _ h _ _ _ Hcap d H3) as [E _].
    destruct (decode_error_in_range out d H3) as (_ & R1 & R2 & R3).
    exists out, d. repeat split; auto; lia. }
  destruct (codec_decode utf_8 err) as [d | t] eqn:H4.
  { destruct (captured_stderr_undecodable _ _ h _ _ _ Hcap s d H3 H4) as [E _].
    destruct (decode_error_in_range err d H4) as (_ & R1 & R2 & R3).
    exists err, d. repeat split; eauto; lia. }
  destruct (captured_decoded _ _ h _ _ _ Hcap s t H3 H4) as (_ & C' & _).
  congruence.
Qed.

Lemma reported_decode_fault_is_located_bad_stderr :
  exists b d,
    (b = [x68; x69] \/ (b = [xe9] /\ exists s, codec_decode utf_8 [x68; x69] = inr s))
    /\ codec_decode utf_8 b = inl d
    /\ outcome_of (run_command bad_stderr (lit "hi") ∅)
       = Returns (error_result (decode_fault b d))
    /\ (de_start d < de_stop d <= length b)%nat
    /\ (de_stop d <= de_start d + 3)%nat
    /\ exists s, codec_decode utf_8 (take (de_start d) b) = inr s.
Proof.
  apply (reported_decode_fault_is_located bad_stderr (lit "hi") ∅
           [x68; x69] [xe9] 2%Z).
  - exists 7. split; reflexivity.
  - reflexivity.
Defined.

Example bad_stderr_run :
  outcome_of (run_command bad_stderr (lit "hi") ∅)
  = Returns
      (dict (PyStr [])
            (PyStr (lit ("Error executing command: 'utf-8' codec can't decode "
                         +:+ "byte 0xe9 in position 0: unexpected end of data")))
            (PyInt (-1))).
Proof. vm_compute. reflexivity. Qed.
